(** * NetRecon: the fixed-window rate limiter and the GeoIP resolver

    A shallow embedding of [services/NetRecon/rate_limiter.py] and
    [api/geoip_resolver.py].

    Python integers are [Z], strings are [string], [None]-able values are
    [option].  A call that may raise is a function into [outcome]; code that
    threads the process globals and the external store through several calls
    lives in the state-and-exception monad [Py]. *)

From Stdlib Require Import ZArith String List Bool Lia.
From stdpp Require Import base gmap strings.

Local Open Scope Z_scope.
Local Open Scope string_scope.
Local Open Scope list_scope.

(** ** Exceptions

    Every class below derives from [Exception]; an [except Exception] clause
    catches all of them.  [exn_str] is [str(e)]. *)

Inductive exn : Type :=
| ValueError (msg : string)
| AddressNotFoundError (msg : string)
| RedisError (msg : string)
| OtherException (msg : string).

Definition exn_str (e : exn) : string :=
  match e with
  | ValueError m | AddressNotFoundError m | RedisError m | OtherException m => m
  end.

Inductive outcome (A : Type) : Type :=
| Returns (a : A)
| Raises (e : exn).

Arguments Returns {A} a.
Arguments Raises {A} e.

(** ** Effectful code

    [PyM S A]: a computation over a state [S] that returns an [A] or raises.
    A raised exception keeps the state reached so far. *)

Definition PyM (S A : Type) : Type := S -> outcome A * S.

Definition ret {S A} (a : A) : PyM S A := fun p => (Returns a, p).

Definition bind {S A B} (m : PyM S A) (k : A -> PyM S B) : PyM S B :=
  fun p =>
    match m p with
    | (Returns a, p') => k a p'
    | (Raises e, p') => (Raises e, p')
    end.

(** [try: body  except Exception as e: handler e] *)
Definition try_except {S A} (body : PyM S A) (handler : exn -> PyM S A)
  : PyM S A :=
  fun p =>
    match body p with
    | (Returns a, p') => (Returns a, p')
    | (Raises e, p') => handler e p'
    end.

Declare Scope py_scope.
Delimit Scope py_scope with py.
Notation "x <- m ;; k" := (bind m (fun x => k))
  (at level 100, m at next level, k at level 200, right associativity)
  : py_scope.
Notation "m ;; k" := (bind m (fun _ => k))
  (at level 100, k at level 200, right associativity) : py_scope.
Local Open Scope py_scope.

(** * The rate limiter *)

Module RateLimiter.

(** [config.settings], read-only for the process lifetime. *)
Record Settings : Type := {
  redis_url : string;
  rate_limit_enabled : bool;
  rate_limit_requests_per_window : Z;
  rate_limit_window_seconds : Z
}.

(** [class RateLimitResult]: three slots. *)
Record RateLimitResult : Type := {
  allowed : bool;
  retry_after : option Z;
  remaining : option Z
}.

(** The part of the [redis] package the module uses.  [Server] is whatever
    lies behind the client (network and store); every call may change it and
    may raise.  [from_url] builds a client object, [ping] is the liveness
    probe, [incr], [expire] and [ttl] are the three store commands. *)
Class RedisApi : Type := {
  Server : Type;
  Redis : Type;
  from_url : string -> Server -> outcome Redis * Server;
  ping : Redis -> Server -> outcome bool * Server;
  incr : Redis -> string -> Server -> outcome Z * Server;
  expire : Redis -> string -> Z -> Server -> outcome bool * Server;
  ttl : Redis -> string -> Server -> outcome (option Z) * Server
}.

(** Calls sent to the [redis] package, in the order they were made. *)
Inductive Call : Type :=
| CallFromUrl (url : string)
| CallPing
| CallIncr (key : string)
| CallExpire (key : string) (seconds : Z)
| CallTtl (key : string).

Inductive Level : Type := INFO | ERROR.

(** A [logger.info] / [logger.error] record: level, format string, arguments. *)
Record LogRecord : Type := {
  level : Level;
  fmt : string;
  args : list string
}.

Section Limiter.

Context {api : RedisApi}.
Variable settings : Settings.

(** The process: the module global [_redis_client], the world behind the
    client, and two observation channels (calls made, log records written). *)
Record Process : Type := {
  _redis_client : option Redis;
  server : Server;
  calls : list Call;
  log : list LogRecord
}.

Definition Py : Type -> Type := PyM Process.

Definition set_redis_client (c : option Redis) : Py unit :=
  fun p => (Returns tt,
            {| _redis_client := c; server := server p;
               calls := calls p; log := log p |}).

Definition get_global : Py (option Redis) :=
  fun p => (Returns (_redis_client p), p).

Definition logger (l : Level) (f : string) (a : list string) : Py unit :=
  fun p => (Returns tt,
            {| _redis_client := _redis_client p; server := server p;
               calls := calls p;
               log := log p ++ [{| level := l; fmt := f; args := a |}] |}).

(** A call into the [redis] package: recorded, then run against the server. *)
Definition call {A} (c : Call) (op : Server -> outcome A * Server) : Py A :=
  fun p =>
    let (r, sv) := op (server p) in
    (r, {| _redis_client := _redis_client p; server := sv;
           calls := calls p ++ [c]; log := log p |}).

(** [get_redis_client] *)
Definition get_redis_client : Py (option Redis) :=
  g <- get_global ;;
  match g with
  | Some c => ret (Some c)
  | None =>
      try_except
        (c <- call (CallFromUrl (redis_url settings))
                   (from_url (redis_url settings)) ;;
         set_redis_client (Some c) ;;
         call CallPing (ping c) ;;
         logger INFO "Connected to Redis for rate limiting at %s"
                [redis_url settings] ;;
         ret (Some c))
        (fun e =>
           logger ERROR "Failed to connect to Redis for rate limiting: %s"
                  [exn_str e] ;;
           set_redis_client None ;;
           ret None)
  end.

Definition fail_open : RateLimitResult :=
  {| allowed := true; retry_after := None; remaining := None |}.

Definition rl_key (identifier : string) : string :=
  "netrecon:rl:" +:+ identifier.

(** [check_rate_limit].  [int(retry_after)] is left out: [ttl] and [window]
    are integers already. *)
Definition check_rate_limit (identifier : string) : Py RateLimitResult :=
  if negb (rate_limit_enabled settings) then
    ret {| allowed := true; retry_after := None; remaining := None |}
  else
    client <- get_redis_client ;;
    match client with
    | None =>
        ret {| allowed := true; retry_after := None; remaining := None |}
    | Some client =>
        let limit := rate_limit_requests_per_window settings in
        let window := rate_limit_window_seconds settings in
        let key := rl_key identifier in
        try_except
          (current <- call (CallIncr key) (incr client key) ;;
           (if (current =? 1)%Z
            then call (CallExpire key window) (expire client key window) ;;
                 ret tt
            else ret tt) ;;
           if (current >? limit)%Z then
             t <- call (CallTtl key) (ttl client key) ;;
             let retry_after :=
               match t with
               | Some n => if (n >? 0)%Z then n else window
               | None => window
               end in
             let remaining := 0 in
             ret {| allowed := false; retry_after := Some retry_after;
                    remaining := Some remaining |}
           else
             let remaining := Z.max (limit - current) 0 in
             ret {| allowed := true; retry_after := None;
                    remaining := Some remaining |})
          (fun e =>
             logger ERROR "Rate limiting check failed for %s: %s"
                    [identifier; exn_str e] ;;
             ret {| allowed := true; retry_after := None;
                    remaining := None |})
    end.

(** Successive calls of [check_rate_limit] in one process. *)
Fixpoint check_all (identifiers : list string) (p : Process)
  : list (outcome RateLimitResult) * Process :=
  match identifiers with
  | [] => ([], p)
  | i :: rest =>
      let (r, p') := check_rate_limit i p in
      let (rs, p'') := check_all rest p' in
      (r :: rs, p'')
  end.

(** *** Vocabulary for the statements *)

(** The [try ... except] statement of [check_rate_limit] on its own, for a
    client already obtained. *)
Definition guarded (client : Redis) (identifier : string)
  : Py RateLimitResult :=
  let limit := rate_limit_requests_per_window settings in
  let window := rate_limit_window_seconds settings in
  let key := rl_key identifier in
  try_except
    (current <- call (CallIncr key) (incr client key) ;;
     (if (current =? 1)%Z
      then call (CallExpire key window) (expire client key window) ;; ret tt
      else ret tt) ;;
     if (current >? limit)%Z then
       t <- call (CallTtl key) (ttl client key) ;;
       ret {| allowed := false;
              retry_after := Some (match t with
                                   | Some n => if (n >? 0)%Z then n else window
                                   | None => window
                                   end);
              remaining := Some 0 |}
     else
       ret {| allowed := true; retry_after := None;
              remaining := Some (Z.max (limit - current) 0) |})
    (fun e =>
       logger ERROR "Rate limiting check failed for %s: %s"
              [identifier; exn_str e] ;;
       ret fail_open).

(** The calls made between process state [p] and a later state [p']. *)
Definition calls_since (p p' : Process) : list Call :=
  drop (length (calls p)) (calls p').

(** The calls of the arming step after an increment returning [current]. *)
Definition arming_calls (identifier : string) (current : Z) : list Call :=
  if (current =? 1)%Z then [CallExpire (rl_key identifier) (rate_limit_window_seconds settings)] else [].

(** The [expire] calls among [cs], with their arguments. *)
Fixpoint expiry_calls (cs : list Call) : list (string * Z) :=
  match cs with
  | [] => []
  | CallExpire k s :: cs' => (k, s) :: expiry_calls cs'
  | _ :: cs' => expiry_calls cs'
  end.

Definition is_connect_call (c : Call) : bool :=
  match c with
  | CallFromUrl _ | CallPing => true
  | _ => false
  end.

(** The server after the arming step that follows an increment returning
    [current]: [expire] is sent only when [current] is 1, and may raise. *)
Definition after_arming (client : Redis) (identifier : string) (current : Z)
    (sv : Server) : outcome Server :=
  if (current =? 1)%Z then
    match expire client (rl_key identifier)
                 (rate_limit_window_seconds settings) sv with
    | (Returns _, sv') => Returns sv'
    | (Raises e, _) => Raises e
    end
  else Returns sv.

(** One of the store commands that [check_rate_limit] sends for
    [identifier], starting from server state [sv], raises [e]. *)
Inductive store_error (client : Redis) (identifier : string) (sv : Server)
  : exn -> Prop :=
| incr_raises e sv' :
    incr client (rl_key identifier) sv = (Raises e, sv') ->
    store_error client identifier sv e
| expire_raises e sv1 sv' :
    incr client (rl_key identifier) sv = (Returns 1, sv1) ->
    expire client (rl_key identifier)
           (rate_limit_window_seconds settings) sv1 = (Raises e, sv') ->
    store_error client identifier sv e
| ttl_raises e current sv1 sv2 sv' :
    incr client (rl_key identifier) sv = (Returns current, sv1) ->
    rate_limit_requests_per_window settings < current ->
    after_arming client identifier current sv1 = Returns sv2 ->
    ttl client (rl_key identifier) sv2 = (Raises e, sv') ->
    store_error client identifier sv e.

(** The decision is reached without a completed evaluation against the
    store: limiting is disabled, no client could be obtained, or a store
    command raised. *)
Definition no_store_evaluation (identifier : string) (p : Process) : Prop :=
  rate_limit_enabled settings = false
  \/ (exists p1, get_redis_client p = (Returns None, p1))
  \/ (exists client p1 e,
        get_redis_client p = (Returns (Some client), p1)
        /\ store_error client identifier (server p1) e).

(** The store stays unreachable: from every server state in [down], a
    connection attempt fails, at [from_url] or at [ping], and leaves the
    server in [down]. *)
Definition stays_down (down : Server -> Prop) : Prop :=
  forall sv, down sv ->
    match from_url (redis_url settings) sv with
    | (Raises _, sv') => down sv'
    | (Returns c, sv') =>
        match ping c sv' with
        | (Raises _, sv'') => down sv''
        | (Returns _, _) => False
        end
    end.

(** The record [logger.error] writes in the handler of [check_rate_limit]. *)
Definition check_failed_record (identifier : string) (e : exn) : LogRecord :=
  {| level := ERROR;
     fmt := "Rate limiting check failed for %s: %s";
     args := [identifier; exn_str e] |}.

(** The key a store command is sent on; [None] for the connection calls. *)
Definition call_key (c : Call) : option string :=
  match c with
  | CallIncr k | CallExpire k _ | CallTtl k => Some k
  | CallFromUrl _ | CallPing => None
  end.

(** The keys of the [ttl] calls among [cs]. *)
Fixpoint ttl_calls (cs : list Call) : list string :=
  match cs with
  | [] => []
  | CallTtl k :: cs' => k :: ttl_calls cs'
  | _ :: cs' => ttl_calls cs'
  end.

(** The store counts the requests on key [k]: [count] reads the counter off
    the server, [incr] adds one and returns the new value, and [expire]
    returns and leaves the counter alone. *)
Definition counts_requests (client : Redis) (k : string)
    (count : Server -> Z) : Prop :=
  (forall sv, exists sv',
      incr client k sv = (Returns (count sv + 1), sv')
      /\ count sv' = count sv + 1)
  /\ (forall sv, exists b sv',
        expire client k (rate_limit_window_seconds settings) sv
        = (Returns b, sv')
        /\ count sv' = count sv).

(** The store answers every time-to-live read on key [k] and leaves the
    counter alone. *)
Definition reports_ttl (client : Redis) (k : string)
    (count : Server -> Z) : Prop :=
  forall sv, exists t sv',
    ttl client k sv = (Returns t, sv') /\ count sv' = count sv.

(** A denial: not allowed, nothing remaining, a [retry_after] present. *)
Definition is_denial (o : outcome RateLimitResult) : Prop :=
  exists r n,
    o = Returns r /\ allowed r = false /\ remaining r = Some 0
    /\ retry_after r = Some n.

End Limiter.

(** The decision that a count [current] dictates under [limit] and [window]
    when the time-to-live read returns [t]: the over-limit and under-limit
    branches of the algorithm, with no store involved. *)
Definition decision_for_count (limit window current : Z) (t : option Z)
  : RateLimitResult :=
  if (current >? limit)%Z then
    {| allowed := false;
       retry_after := Some (match t with
                            | Some n => if (n >? 0)%Z then n else window
                            | None => window
                            end);
       remaining := Some 0 |}
  else
    {| allowed := true; retry_after := None;
       remaining := Some (Z.max (limit - current) 0) |}.

(** The results of [n] admitted requests in a row when [from] requests
    were counted before: [remaining] goes down by one each time. *)
Fixpoint admissions (limit from : Z) (n : nat)
  : list (outcome RateLimitResult) :=
  match n with
  | O => []
  | S n' =>
      Returns {| allowed := true; retry_after := None;
                 remaining := Some (limit - (from + 1)) |}
      :: admissions limit (from + 1) n'
  end.

End RateLimiter.

(** ** A scripted store

    A test double for the [redis] package: every command answers with the
    next reply of its script (and raises once the script is used up), the
    way a mock with a list of side effects does. *)

Module MockRedis.

Import RateLimiter.

Record Script : Type := {
  ping_replies : list (outcome bool);
  incr_replies : list (outcome Z);
  expire_replies : list (outcome bool);
  ttl_replies : list (outcome (option Z))
}.

Definition next {A} (l : list (outcome A)) : outcome A * list (outcome A) :=
  match l with
  | [] => (Raises (RedisError "Connection closed by server."), [])
  | r :: l' => (r, l')
  end.

#[local] Instance mock : RedisApi := {|
  Server := Script;
  Redis := string;
  from_url url s := (Returns url, s);
  ping _ s :=
    let (r, l) := next (ping_replies s) in
    (r, {| ping_replies := l; incr_replies := incr_replies s;
           expire_replies := expire_replies s;
           ttl_replies := ttl_replies s |});
  incr _ _ s :=
    let (r, l) := next (incr_replies s) in
    (r, {| ping_replies := ping_replies s; incr_replies := l;
           expire_replies := expire_replies s;
           ttl_replies := ttl_replies s |});
  expire _ _ _ s :=
    let (r, l) := next (expire_replies s) in
    (r, {| ping_replies := ping_replies s; incr_replies := incr_replies s;
           expire_replies := l; ttl_replies := ttl_replies s |});
  ttl _ _ s :=
    let (r, l) := next (ttl_replies s) in
    (r, {| ping_replies := ping_replies s; incr_replies := incr_replies s;
           expire_replies := expire_replies s; ttl_replies := l |})
|}.

(** A process that has not called [get_redis_client] yet. *)
Definition fresh (s : Script) : Process :=
  {| _redis_client := None; server := s; calls := []; log := [] |}.

(** limit = 5 requests per window of 60 seconds. *)
Definition cfg : Settings :=
  {| redis_url := "redis://localhost:6379/0";
     rate_limit_enabled := true;
     rate_limit_requests_per_window := 5;
     rate_limit_window_seconds := 60 |}.

Definition cfg_disabled : Settings :=
  {| redis_url := "redis://localhost:6379/0";
     rate_limit_enabled := false;
     rate_limit_requests_per_window := 5;
     rate_limit_window_seconds := 60 |}.

(** The store is up; the sixth request of a window arrives and 42 seconds
    of the window remain. *)
Definition over_script : Script :=
  {| ping_replies := [Returns true];
     incr_replies := [Returns 6];
     expire_replies := [];
     ttl_replies := [Returns (Some 42)] |}.

(** The store is up; the first request of a window arrives. *)
Definition first_hit_script : Script :=
  {| ping_replies := [Returns true];
     incr_replies := [Returns 1];
     expire_replies := [Returns true];
     ttl_replies := [] |}.


(** The store is up and counts the first request, then [expire] raises. *)
Definition expire_down_script : Script :=
  {| ping_replies := [Returns true];
     incr_replies := [Returns 1];
     expire_replies := [Raises (RedisError "Connection reset by peer.")];
     ttl_replies := [] |}.

(** The store passes the probe, then [incr] raises. *)
Definition incr_down_script : Script :=
  {| ping_replies := [Returns true];
     incr_replies := [Raises (RedisError "Connection reset by peer.")];
     expire_replies := [];
     ttl_replies := [] |}.

(** One window under limit 5: six requests arrive, the key is armed on the
    first, and the whole window remains when the sixth is refused. *)
Definition window_script : Script :=
  {| ping_replies := [Returns true];
     incr_replies := [Returns 1; Returns 2; Returns 3; Returns 4; Returns 5;
                      Returns 6];
     expire_replies := [Returns true];
     ttl_replies := [Returns (Some 60)] |}.

(** Every liveness probe is refused. *)
Definition down_script : Script :=
  {| ping_replies := [Raises (RedisError "Connection refused.")];
     incr_replies := [];
     expire_replies := [];
     ttl_replies := [] |}.

(** The store is up and counts a sixth request, then [ttl] raises. *)
Definition ttl_down_script : Script :=
  {| ping_replies := [Returns true];
     incr_replies := [Returns 6];
     expire_replies := [];
     ttl_replies := [Raises (RedisError "Connection reset by peer.")] |}.

(** The liveness probe answers, but with [False]. *)
Definition ping_false_script : Script :=
  {| ping_replies := [Returns false];
     incr_replies := [Returns 1];
     expire_replies := [Returns true];
     ttl_replies := [] |}.

(** A process whose client is already cached. *)
Definition connected (s : Script) : Process :=
  {| _redis_client := Some "redis://localhost:6379/0"; server := s;
     calls := []; log := [] |}.

(** The store is up, then [incr] raises twice, then counts again. *)
Definition flaky_script : Script :=
  {| ping_replies := [];
     incr_replies := [Raises (RedisError "Connection reset by peer.");
                      Raises (RedisError "Connection reset by peer.");
                      Returns 7];
     expire_replies := [];
     ttl_replies := [Raises (RedisError "Connection reset by peer.")] |}.

End MockRedis.

(** ** A counting store

    One counter and no clock: [incr] adds one, [expire] and [ping] succeed,
    [ttl] reports a full minute.  Enough to run a window without a script. *)

Module CounterRedis.

Import RateLimiter.

#[local] Instance counter : RedisApi := {|
  Server := Z;
  Redis := string;
  from_url url n := (Returns url, n);
  ping _ n := (Returns true, n);
  incr _ _ n := (Returns (n + 1), n + 1);
  expire _ _ _ n := (Returns true, n);
  ttl _ _ n := (Returns (Some 60), n)
|}.

(** A process with a cached client, [n] requests already counted. *)
Definition running (n : Z) : Process :=
  {| _redis_client := Some "redis://localhost:6379/0"; server := n;
     calls := []; log := [] |}.

End CounterRedis.

(** * The GeoIP resolver *)

Module GeoIP.

(** What [ipaddress.ip_address] returns; only its class is inspected. *)
Inductive IPAddress : Type := IPv4Address | IPv6Address.

(** Look-ups sent to the two database readers, in order. *)
Inductive DbCall : Type :=
| CityLookup (ip : string)
| AsnLookup (ip : string).

Section Resolver.

(** Python floats and the JSON values of the metadata table are only passed
    through. *)
Context {Float Json : Type}.

(** The attributes of a [geoip2] city response that [lookup_ip] reads.  A
    sub-record that tests false in Python is [None] here; what is read
    without that test is a field of [City] itself. *)
Record Continent : Type := {
  continent_names : gmap string string;
  continent_code : option string
}.

Record Country : Type := {
  country_names : gmap string string;
  iso_code : option string
}.

Record Subdivision : Type := {
  subdivision_names : gmap string string;
  subdivision_iso_code : option string
}.

Record Place : Type := {
  place_names : gmap string string
}.

Record Location : Type := {
  latitude : option Float;
  longitude : option Float;
  time_zone : option string
}.

Record Postal : Type := {
  postal_code : option string
}.

Record City : Type := {
  continent : option Continent;
  country : option Country;
  (** [getattr(city.country, "is_in_european_union", None)], read whatever
      the truth value of [city.country] *)
  country_is_in_european_union : option bool;
  subdivisions_most_specific : option Subdivision;
  city : option Place;
  location : Location;
  postal : option Postal
}.

(** The attributes of a [geoip2] ASN response that [_lookup_connection]
    reads; [network] is [None] or the printed form of the network. *)
Record Asn : Type := {
  autonomous_system_number : option Z;
  autonomous_system_organization : option string;
  network : option string
}.

(** An entry of [COUNTRY_META], at the shape the code reads it at: a dict
    whose ["flag"] member, when present, is itself a dict.  [json.load] also
    accepts a table of another shape; [lookup_ip_raw] below takes the table
    as loaded, and [lookup_ip] is its view on a table of this shape. *)
Record CountryMeta : Type := {
  meta_calling_code : option Json;
  meta_capital : option Json;
  meta_borders : option Json;
  meta_flag : option (gmap string Json)
}.

(** The dicts the resolver builds. *)
Record Flag : Type := {
  emoji : option Json;
  svg : option Json;
  png : option Json
}.

Record Connection : Type := {
  asn : option Z;
  org : option string;
  isp : option string;
  route : string
}.

Record Result : Type := {
  r_ip : string;
  r_success : bool;
  r_type : string;
  r_continent : option string;
  r_continent_code : option string;
  r_country : option string;
  r_country_code : option string;
  r_region : option string;
  r_region_code : option string;
  r_city : option string;
  r_latitude : option Float;
  r_longitude : option Float;
  r_is_eu : option bool;
  r_postal : option string;
  r_calling_code : option Json;
  r_capital : option Json;
  r_borders : option Json;
  r_flag : option Flag;
  r_connection : option Connection;
  r_timezone : option string
}.

(** The libraries and the data behind the module: [ipaddress.ip_address],
    [city_reader.city], [asn_reader.asn] and the loaded metadata table. *)
Variable ip_address : string -> outcome IPAddress.
Variable city_reader_city : string -> outcome City.
Variable asn_reader_asn : string -> outcome Asn.
Variable COUNTRY_META : gmap string CountryMeta.

(** [ipaddress.ip_address], given a string, either returns an address or
    raises [ValueError]. *)
Definition raises_only_ValueError : Prop :=
  forall s e, ip_address s = Raises e -> exists m, e = ValueError m.

Definition Db : Type -> Type := PyM (list DbCall).

(** A database look-up: recorded, then answered. *)
Definition query {A} (c : DbCall) (r : outcome A) : Db A :=
  fun tr => (r, (tr ++ [c])%list).

(** [str(asn.network)] *)
Definition str_network (n : option string) : string :=
  match n with
  | Some s => s
  | None => "None"
  end.

(** [_lookup_connection] *)
Definition _lookup_connection (ip : string) : Db (option Connection) :=
  fun tr =>
    match query (AsnLookup ip) (asn_reader_asn ip) tr with
    | (Raises (AddressNotFoundError _), tr') => (Returns None, tr')
    | (Raises _, tr') => (Returns None, tr')
    | (Returns a, tr') =>
        (Returns (Some {| asn := autonomous_system_number a;
                          org := autonomous_system_organization a;
                          isp := autonomous_system_organization a;
                          route := str_network (network a) |}), tr')
    end.

(** The three assignments under [if cc and cc in COUNTRY_META], and the
    nested [if flag_meta]. *)
Definition inject_meta (meta : CountryMeta) (result : Result) : Result :=
  {| r_ip := r_ip result; r_success := r_success result;
     r_type := r_type result; r_continent := r_continent result;
     r_continent_code := r_continent_code result;
     r_country := r_country result;
     r_country_code := r_country_code result;
     r_region := r_region result; r_region_code := r_region_code result;
     r_city := r_city result; r_latitude := r_latitude result;
     r_longitude := r_longitude result; r_is_eu := r_is_eu result;
     r_postal := r_postal result;
     r_calling_code := meta_calling_code meta;
     r_capital := meta_capital meta;
     r_borders := meta_borders meta;
     r_flag :=
       match meta_flag meta with
       | Some flag_meta =>
           if bool_decide (flag_meta = ∅) then r_flag result
           else Some {| emoji := flag_meta !! "emoji";
                        svg := flag_meta !! "svg";
                        png := flag_meta !! "png" |}
       | None => r_flag result
       end;
     r_connection := r_connection result;
     r_timezone := r_timezone result |}.

(** [result["connection"] = connection] *)
Definition set_connection (connection : Connection) (result : Result)
  : Result :=
  {| r_ip := r_ip result; r_success := r_success result;
     r_type := r_type result; r_continent := r_continent result;
     r_continent_code := r_continent_code result;
     r_country := r_country result;
     r_country_code := r_country_code result;
     r_region := r_region result; r_region_code := r_region_code result;
     r_city := r_city result; r_latitude := r_latitude result;
     r_longitude := r_longitude result; r_is_eu := r_is_eu result;
     r_postal := r_postal result;
     r_calling_code := r_calling_code result;
     r_capital := r_capital result;
     r_borders := r_borders result;
     r_flag := r_flag result;
     r_connection := Some connection;
     r_timezone := r_timezone result |}.

(** The dict literal of [lookup_ip], before metadata and connection. *)
Definition base_result (ip : string) (ip_obj : IPAddress) (c : City)
  : Result :=
  let continent_name :=
    match continent c with
    | Some k => continent_names k !! "en"
    | None => None
    end in
  let country_name :=
    match country c with
    | Some k => country_names k !! "en"
    | None => None
    end in
  let region := subdivisions_most_specific c in
  let region_name :=
    match region with
    | Some r =>
        if bool_decide (subdivision_names r = ∅) then None
        else subdivision_names r !! "en"
    | None => None
    end in
  let city_name :=
    match city c with
    | Some k => place_names k !! "en"
    | None => None
    end in
  {| r_ip := ip;
     r_success := true;
     r_type := match ip_obj with
               | IPv4Address => "ipv4"
               | IPv6Address => "ipv6"
               end;
     r_continent := continent_name;
     r_continent_code := match continent c with
                         | Some k => continent_code k
                         | None => None
                         end;
     r_country := country_name;
     r_country_code := match country c with
                       | Some k => iso_code k
                       | None => None
                       end;
     r_region := region_name;
     r_region_code := match region with
                      | Some r => subdivision_iso_code r
                      | None => None
                      end;
     r_city := city_name;
     r_latitude := latitude (location c);
     r_longitude := longitude (location c);
     r_is_eu := country_is_in_european_union c;
     r_postal := match postal c with
                 | Some k => postal_code k
                 | None => None
                 end;
     r_calling_code := None;
     r_capital := None;
     r_borders := None;
     r_flag := None;
     r_connection := None;
     r_timezone := time_zone (location c) |}.

(** [lookup_ip]: the pair [(result, error)], or an exception.  The table
    is one of the shape the code reads; [lookup_ip_raw] below is the same
    function on the table as loaded, and [lookup_ip_raw_view] relates the
    two. *)
Definition lookup_ip (ip : string) : Db (option Result * option string) :=
  fun tr =>
    match ip_address ip with
    | Raises (ValueError _) => (Returns (None, Some "invalid_ip"), tr)
    | Raises e => (Raises e, tr)
    | Returns ip_obj =>
        match query (CityLookup ip) (city_reader_city ip) tr with
        | (Raises (AddressNotFoundError _), tr1) =>
            (Returns (None, Some "not_found"), tr1)
        | (Raises e, tr1) =>
            (Returns (None, Some ("lookup_error:" +:+ exn_str e)), tr1)
        | (Returns c, tr1) =>
            let result := base_result ip ip_obj c in
            let cc := r_country_code result in
            let result :=
              match cc with
              | Some code =>
                  if negb (String.eqb code "") then
                    match COUNTRY_META !! code with
                    | Some meta => inject_meta meta result
                    | None => result
                    end
                  else result
              | None => result
              end in
            match _lookup_connection ip tr1 with
            | (Returns connection, tr2) =>
                let result :=
                  match connection with
                  | Some k => set_connection k result
                  | None => result
                  end in
                (Returns (Some result, None), tr2)
            | (Raises e, tr2) => (Raises e, tr2)
            end
        end
    end.

(** *** Vocabulary for the statements *)

(** The metadata step of [lookup_ip] on its own: the block under
    [if cc and cc in COUNTRY_META]. *)
Definition with_meta (result : Result) : Result :=
  match r_country_code result with
  | Some code =>
      if negb (String.eqb code "") then
        match COUNTRY_META !! code with
        | Some meta => inject_meta meta result
        | None => result
        end
      else result
  | None => result
  end.

(** The dict [_lookup_connection] builds from an ASN response. *)
Definition connection_of (a : Asn) : Connection :=
  {| asn := autonomous_system_number a;
     org := autonomous_system_organization a;
     isp := autonomous_system_organization a;
     route := str_network (network a) |}.

(** [city.country.iso_code if city.country else None] *)
Definition country_code_of (c : City) : option string :=
  match country c with
  | Some k => iso_code k
  | None => None
  end.

(** The flag dict built from a non-empty flag entry. *)
Definition flag_of (flag_meta : gmap string Json) : Flag :=
  {| emoji := flag_meta !! "emoji";
     svg := flag_meta !! "svg";
     png := flag_meta !! "png" |}.

End Resolver.

(** ** The metadata table as loaded

    [json.load] returns any JSON value.  A float is kept by its printed form
    and by whether it is zero; a JSON null is [JNull], Python's [None]. *)

#[warnings="-register-all"] Inductive json : Type :=
| JNull
| JBool (b : bool)
| JInt (n : Z)
| JFloat (zero : bool) (repr : string)
| JString (s : string)
| JArray (items : list json)
| JObject (members : gmap string json).

(** [type(v).__name__] *)
Definition type_name (v : json) : string :=
  match v with
  | JNull => "NoneType"
  | JBool _ => "bool"
  | JInt _ => "int"
  | JFloat _ _ => "float"
  | JString _ => "str"
  | JArray _ => "list"
  | JObject _ => "dict"
  end.

(** [bool(v)] *)
Definition truthy (v : json) : bool :=
  match v with
  | JNull => false
  | JBool b => b
  | JInt n => negb (n =? 0)%Z
  | JFloat zero _ => negb zero
  | JString s => negb (String.eqb s "")
  | JArray items => match items with [] => false | _ :: _ => true end
  | JObject members => negb (bool_decide (members = ∅))
  end.

(** [k in s] for two strings *)
Fixpoint is_substring (k s : string) : bool :=
  String.prefix k s
  || match s with
     | EmptyString => false
     | String _ s' => is_substring k s'
     end.

(** [k in container], for a string [k]: a key test on a dict, a membership
    test on a list, a substring test on a string, a [TypeError] on anything
    else. *)
Definition py_in (k : string) (container : json) : outcome bool :=
  match container with
  | JObject members =>
      Returns match members !! k with Some _ => true | None => false end
  | JArray items =>
      Returns (existsb (fun v => match v with
                                 | JString s => String.eqb s k
                                 | _ => false
                                 end) items)
  | JString s => Returns (is_substring k s)
  | _ =>
      Raises (OtherException
                ("argument of type '" +:+ type_name container
                 +:+ "' is not iterable"))
  end.

(** [container[k]], for a string [k]: the member of a dict ([KeyError] when
    missing), a [TypeError] on anything else. *)
Definition py_getitem (container : json) (k : string) : outcome json :=
  match container with
  | JObject members =>
      match members !! k with
      | Some v => Returns v
      | None => Raises (OtherException ("'" +:+ k +:+ "'"))
      end
  | JArray _ =>
      Raises (OtherException
                "list indices must be integers or slices, not str")
  | JString _ =>
      Raises (OtherException "string indices must be integers, not 'str'")
  | _ =>
      Raises (OtherException
                ("'" +:+ type_name container
                 +:+ "' object is not subscriptable"))
  end.

(** [obj.get(k)]: the member of a dict, [None] when missing; an
    [AttributeError] on anything that is not a dict. *)
Definition py_get (obj : json) (k : string) : outcome (option json) :=
  match obj with
  | JObject members => Returns (members !! k)
  | _ =>
      Raises (OtherException
                ("'" +:+ type_name obj
                 +:+ "' object has no attribute 'get'"))
  end.

(** [bool(v)] for the result of a [.get]. *)
Definition truthy_opt (v : option json) : bool :=
  match v with
  | Some v => truthy v
  | None => false
  end.

Definition and_then {A B} (o : outcome A) (k : A -> outcome B) : outcome B :=
  match o with
  | Returns a => k a
  | Raises e => Raises e
  end.

Section RawTable.

Context {Float : Type}.
Variable ip_address : string -> outcome IPAddress.
Variable city_reader_city : string -> outcome (@City Float).
Variable asn_reader_asn : string -> outcome Asn.
Variable COUNTRY_META : json.

(** The assignments of the metadata block, all at once. *)
Definition set_meta (calling_code capital borders : option json)
    (flag : option (@Flag json)) (result : @Result Float json)
  : @Result Float json :=
  {| r_ip := r_ip result; r_success := r_success result;
     r_type := r_type result; r_continent := r_continent result;
     r_continent_code := r_continent_code result;
     r_country := r_country result;
     r_country_code := r_country_code result;
     r_region := r_region result; r_region_code := r_region_code result;
     r_city := r_city result; r_latitude := r_latitude result;
     r_longitude := r_longitude result; r_is_eu := r_is_eu result;
     r_postal := r_postal result;
     r_calling_code := calling_code;
     r_capital := capital;
     r_borders := borders;
     r_flag := flag;
     r_connection := r_connection result;
     r_timezone := r_timezone result |}.

(** The block [cc = result["country_code"]; if cc and cc in COUNTRY_META:
    ...] of [lookup_ip], on the table as loaded: every [in], subscript and
    [.get] may raise. *)
Definition inject_meta_raw (result : @Result Float json)
  : outcome (@Result Float json) :=
  match r_country_code result with
  | Some cc =>
      if negb (String.eqb cc "") then
        and_then (py_in cc COUNTRY_META) (fun present =>
          if present then
            and_then (py_getitem COUNTRY_META cc) (fun meta =>
            and_then (py_get meta "calling_code") (fun calling_code =>
            and_then (py_get meta "capital") (fun capital =>
            and_then (py_get meta "borders") (fun borders =>
            and_then (py_get meta "flag") (fun flag_meta =>
              match flag_meta with
              | Some f =>
                  if truthy f then
                    and_then (py_get f "emoji") (fun e =>
                    and_then (py_get f "svg") (fun s =>
                    and_then (py_get f "png") (fun g =>
                      Returns (set_meta calling_code capital borders
                                 (Some {| emoji := e; svg := s; png := g |})
                                 result))))
                  else Returns (set_meta calling_code capital borders
                                  (r_flag result) result)
              | None => Returns (set_meta calling_code capital borders
                                   (r_flag result) result)
              end)))))
          else Returns result)
      else Returns result
  | None => Returns result
  end.

(** [lookup_ip] on the table as loaded. *)
Definition lookup_ip_raw (ip : string)
  : PyM (list DbCall) (option (@Result Float json) * option string) :=
  fun tr =>
    match ip_address ip with
    | Raises (ValueError _) => (Returns (None, Some "invalid_ip"), tr)
    | Raises e => (Raises e, tr)
    | Returns ip_obj =>
        match query (CityLookup ip) (city_reader_city ip) tr with
        | (Raises (AddressNotFoundError _), tr1) =>
            (Returns (None, Some "not_found"), tr1)
        | (Raises e, tr1) =>
            (Returns (None, Some ("lookup_error:" +:+ exn_str e)), tr1)
        | (Returns c, tr1) =>
            let result := base_result ip ip_obj c in
            match inject_meta_raw result with
            | Raises e => (Raises e, tr1)
            | Returns result =>
                match _lookup_connection asn_reader_asn ip tr1 with
                | (Returns connection, tr2) =>
                    let result :=
                      match connection with
                      | Some k => set_connection k result
                      | None => result
                      end in
                    (Returns (Some result, None), tr2)
                | (Raises e, tr2) => (Raises e, tr2)
                end
            end
        end
    end.

(** *** Vocabulary for the statements *)

(** A table of the shape the code reads: a dict whose entries are dicts, the
    ["flag"] member of an entry being a dict or a value that tests false. *)
Definition well_shaped (table : json) : Prop :=
  exists entries,
    table = JObject entries
    /\ forall k v, entries !! k = Some v ->
         exists e,
           v = JObject e
           /\ match e !! "flag" with
              | Some f => truthy f = true -> exists d, f = JObject d
              | None => True
              end.

(** An entry and a table of that shape as [CountryMeta] records. *)
Definition entry_view (v : json) : @CountryMeta json :=
  match v with
  | JObject e =>
      {| meta_calling_code := e !! "calling_code";
         meta_capital := e !! "capital";
         meta_borders := e !! "borders";
         meta_flag := match e !! "flag" with
                      | Some (JObject d) => Some d
                      | _ => None
                      end |}
  | _ =>
      {| meta_calling_code := None; meta_capital := None;
         meta_borders := None; meta_flag := None |}
  end.

Definition table_view (table : json) : gmap string (@CountryMeta json) :=
  match table with
  | JObject entries => entry_view <$> entries
  | _ => ∅
  end.

(** The members of the table entry a look-up consults for city record [c]:
    the entry under the record's country code, when that code is not empty
    and is a key of the table. *)
Definition meta_entry (c : @City Float) : option (gmap string json) :=
  match country_code_of c with
  | Some cc =>
      if String.eqb cc "" then None
      else match COUNTRY_META with
           | JObject entries =>
               match entries !! cc with
               | Some (JObject e) => Some e
               | _ => None
               end
           | _ => None
           end
  | None => None
  end.

(** The flag dict built from the ["flag"] member of an entry. *)
Definition flag_from (f : option json) : option (@Flag json) :=
  match f with
  | Some (JObject d) =>
      if bool_decide (d = ∅) then None else Some (flag_of d)
  | _ => None
  end.

End RawTable.

End GeoIP.

(** ** A small database

    One IPv4 address known to both databases, one IPv6 address known to the
    city database only, and a metadata table with one country. *)

Module GeoIPExample.

Import GeoIP.

Definition ip_address (s : string) : outcome IPAddress :=
  if String.eqb s "8.8.8.8" then Returns IPv4Address
  else if String.eqb s "2001:4860:4860::8888" then Returns IPv6Address
  else Raises (ValueError
                 (s +:+ " does not appear to be an IPv4 or IPv6 address")).

Definition mountain_view : @City string :=
  {| continent := Some {| continent_names := {["en" := "North America"]};
                          continent_code := Some "NA" |};
     country := Some {| country_names := {["en" := "United States"]};
                        iso_code := Some "US" |};
     country_is_in_european_union := Some false;
     subdivisions_most_specific :=
       Some {| subdivision_names := {["en" := "California"]};
               subdivision_iso_code := Some "CA" |};
     city := Some {| place_names := {["en" := "Mountain View"]} |};
     location := {| latitude := Some "37.4056";
                    longitude := Some "-122.0775";
                    time_zone := Some "America/Los_Angeles" |};
     postal := Some {| postal_code := Some "94043" |} |}.

Definition city_reader_city (s : string) : outcome (@City string) :=
  if String.eqb s "8.8.8.8" then Returns mountain_view
  else if String.eqb s "2001:4860:4860::8888" then Returns mountain_view
  else Raises (AddressNotFoundError
                 ("The address " +:+ s +:+ " is not in the database.")).

Definition asn_reader_asn (s : string) : outcome Asn :=
  if String.eqb s "8.8.8.8" then
    Returns {| autonomous_system_number := Some 15169;
               autonomous_system_organization := Some "GOOGLE";
               network := Some "8.8.8.0/24" |}
  else Raises (AddressNotFoundError
                 ("The address " +:+ s +:+ " is not in the database.")).

Definition COUNTRY_META : gmap string (@CountryMeta string) :=
  {["US" := {| meta_calling_code := Some "+1";
               meta_capital := Some "Washington, D.C.";
               meta_borders := None;
               meta_flag := Some {["emoji" := "US"; "svg" := "us.svg"]} |}]}.

(** The same table as [json.load] returns it. *)
Definition us_flag : gmap string json :=
  {["emoji" := JString "US"; "svg" := JString "us.svg"]}.

Definition us_entry : gmap string json :=
  {["calling_code" := JString "+1";
    "capital" := JString "Washington, D.C.";
    "flag" := JObject us_flag]}.

Definition COUNTRY_META_loaded : json :=
  JObject {["US" := JObject us_entry]}.

(** A table whose flag is a file name instead of a dict. *)
Definition flag_as_string_table : json :=
  JObject
    {["US" := JObject {["calling_code" := JString "+1";
                        "flag" := JString "us.svg"]}]}.

End GeoIPExample.

(** * Properties of the rate limiter *)

Module RateLimiterFacts.

Import RateLimiter.

Section Facts.

Context {api : RedisApi}.
Variable settings : Settings.

#[local] Abbreviation limit := (rate_limit_requests_per_window settings).
#[local] Abbreviation window := (rate_limit_window_seconds settings).
#[local] Abbreviation enabled := (rate_limit_enabled settings).
#[local] Abbreviation get_client := (get_redis_client settings).
#[local] Abbreviation check := (check_rate_limit settings).

Ltac unfold_py :=
  unfold bind, ret, try_except, call, logger, set_redis_client, get_global
    in *.

(** ** The connection getter *)

Lemma get_client_cached (p : Process) (c : Redis) :
  _redis_client p = Some c -> get_client p = (Returns (Some c), p).
Proof.
  intros H. unfold get_redis_client. unfold_py. rewrite H. reflexivity.
Qed.

(** What one connection attempt does, by the replies of [from_url] and
    [ping]. *)
Lemma get_client_attempt (p : Process) :
  _redis_client p = None ->
  exists r p' cs,
    get_client p = (Returns r, p')
    /\ _redis_client p' = r
    /\ calls p' = calls p ++ CallFromUrl (redis_url settings) :: cs
    /\ forallb is_connect_call cs = true
    /\ (r = None ->
        exists e, log p' =
          log p ++ [{| level := ERROR;
                       fmt := "Failed to connect to Redis for rate limiting: %s";
                       args := [exn_str e] |}]).
Proof.
  intros H. unfold get_redis_client. unfold_py. rewrite H. simpl.
  destruct (from_url (redis_url settings) (server p)) as [[c|e] sv]; simpl.
  - destruct (ping c sv) as [[b|e] sv']; simpl.
    + eexists _, _, [CallPing]. rewrite <- app_assoc. simpl.
      repeat split; discriminate.
    + eexists _, _, [CallPing]. rewrite <- app_assoc. simpl.
      repeat split. intros _. eexists. reflexivity.
  - eexists _, _, []. simpl. repeat split. intros _. eexists. reflexivity.
Qed.

Lemma get_client_returns (p : Process) :
  exists r p', get_client p = (Returns r, p') /\ _redis_client p' = r.
Proof.
  destruct (_redis_client p) as [c|] eqn:H.
  - exists (Some c), p. split; [apply get_client_cached|]; assumption.
  - destruct (get_client_attempt p H) as (r & p' & cs & E & G & _).
    exists r, p'. split; assumption.
Qed.

Lemma get_client_calls (p p' : Process) (o : outcome (option Redis)) :
  get_client p = (o, p') ->
  exists cs, calls p' = calls p ++ cs /\ forallb is_connect_call cs = true.
Proof.
  intros E. destruct (_redis_client p) as [c|] eqn:H.
  - rewrite (get_client_cached p c H) in E. inversion E; subst.
    exists []. rewrite app_nil_r. split; reflexivity.
  - destruct (get_client_attempt p H) as (r & q & cs & E' & _ & C & F & _).
    rewrite E' in E. inversion E; subst.
    exists (CallFromUrl (redis_url settings) :: cs). split; assumption.
Qed.


Lemma expiry_calls_app (cs ds : list Call) :
  expiry_calls (cs ++ ds) = expiry_calls cs ++ expiry_calls ds.
Proof.
  induction cs as [|c cs IH]; simpl; [reflexivity|].
  destruct c; simpl; rewrite IH; reflexivity.
Qed.

Lemma expiry_calls_connect (cs : list Call) :
  forallb is_connect_call cs = true -> expiry_calls cs = [].
Proof.
  induction cs as [|c cs IH]; simpl; [reflexivity|].
  destruct c; simpl; intros H; try discriminate; apply IH; assumption.
Qed.

(** ** The two early exits of [check_rate_limit] *)

Lemma check_disabled (identifier : string) (p : Process) :
  enabled = false -> check identifier p = (Returns fail_open, p).
Proof.
  intros H. unfold check_rate_limit. rewrite H. reflexivity.
Qed.

Lemma check_no_client (identifier : string) (p p1 : Process) :
  enabled = true ->
  get_client p = (Returns None, p1) ->
  check identifier p = (Returns fail_open, p1).
Proof.
  intros H E. unfold check_rate_limit. rewrite H. simpl.
  unfold bind. rewrite E. reflexivity.
Qed.

Lemma check_with_client (identifier : string) (p p1 : Process) (c : Redis) :
  enabled = true ->
  get_client p = (Returns (Some c), p1) ->
  check identifier p = guarded settings c identifier p1.
Proof.
  intros H E. unfold check_rate_limit. rewrite H. simpl.
  unfold bind at 1. rewrite E. reflexivity.
Qed.

(** ** The guarded part, case by case

    Each lemma gives the result, the calls sent and the log records written
    for one way the store can answer. *)

Ltac unfold_guarded :=
  unfold guarded, after_arming, arming_calls in *;
  unfold bind, ret, try_except, call, logger; simpl.

Lemma guarded_incr_raises (c : Redis) (identifier : string) (p1 : Process)
    (e : exn) (sv' : Server) :
  incr c (rl_key identifier) (server p1) = (Raises e, sv') ->
  exists p',
    guarded settings c identifier p1 = (Returns fail_open, p')
    /\ calls p' = calls p1 ++ [CallIncr (rl_key identifier)]
    /\ log p' = log p1 ++ [check_failed_record identifier e].
Proof.
  intros Hi. unfold_guarded. rewrite Hi. simpl.
  eexists. repeat split.
Qed.

Lemma guarded_arming_raises (c : Redis) (identifier : string) (p1 : Process)
    (current : Z) (e : exn) (sv1 : Server) :
  incr c (rl_key identifier) (server p1) = (Returns current, sv1) ->
  after_arming settings c identifier current sv1 = Raises e ->
  exists p',
    guarded settings c identifier p1 = (Returns fail_open, p')
    /\ calls p' = calls p1 ++ [CallIncr (rl_key identifier);
                               CallExpire (rl_key identifier) window]
    /\ log p' = log p1 ++ [check_failed_record identifier e].
Proof.
  intros Hi Ha. unfold_guarded. rewrite Hi. simpl.
  destruct (current =? 1)%Z; [simpl|discriminate].
  destruct (expire c (rl_key identifier) window sv1) as [[b|e'] sv2];
    [discriminate|].
  inversion Ha; subst. simpl. eexists.
  rewrite <- app_assoc. repeat split.
Qed.

Lemma guarded_under_limit (c : Redis) (identifier : string) (p1 : Process)
    (current : Z) (sv1 sv2 : Server) :
  incr c (rl_key identifier) (server p1) = (Returns current, sv1) ->
  after_arming settings c identifier current sv1 = Returns sv2 ->
  current <= limit ->
  exists p',
    guarded settings c identifier p1 =
      (Returns {| allowed := true; retry_after := None;
                  remaining := Some (Z.max (limit - current) 0) |}, p')
    /\ calls p' = calls p1 ++ CallIncr (rl_key identifier)
                              :: arming_calls settings identifier current
    /\ log p' = log p1.
Proof.
  intros Hi Ha Hle. unfold_guarded. rewrite Hi. simpl.
  assert (Hgt : (current >? limit)%Z = false) by lia.
  destruct (current =? 1)%Z; simpl.
  - destruct (expire c (rl_key identifier) window sv1) as [[b|e'] sv'];
      [|discriminate].
    simpl. rewrite Hgt. eexists. rewrite <- app_assoc. repeat split.
  - simpl. rewrite Hgt. eexists. repeat split.
Qed.

Lemma guarded_over_limit (c : Redis) (identifier : string) (p1 : Process)
    (current : Z) (sv1 sv2 sv3 : Server) (t : option Z) :
  incr c (rl_key identifier) (server p1) = (Returns current, sv1) ->
  after_arming settings c identifier current sv1 = Returns sv2 ->
  limit < current ->
  ttl c (rl_key identifier) sv2 = (Returns t, sv3) ->
  exists p',
    guarded settings c identifier p1 =
      (Returns (decision_for_count limit window current t), p')
    /\ calls p' = calls p1 ++ CallIncr (rl_key identifier)
                              :: arming_calls settings identifier current
                              ++ [CallTtl (rl_key identifier)]
    /\ log p' = log p1.
Proof.
  intros Hi Ha Hlt Ht. unfold decision_for_count. unfold_guarded.
  rewrite Hi. simpl.
  assert (Hgt : (current >? limit)%Z = true) by lia.
  destruct (current =? 1)%Z; simpl.
  - destruct (expire c (rl_key identifier) window sv1) as [[b|e'] sv'];
      [|discriminate].
    inversion Ha; subst. simpl. rewrite Hgt. simpl. rewrite Ht. simpl.
    eexists. rewrite <- !app_assoc. repeat split.
  - inversion Ha; subst. simpl. rewrite Hgt. simpl. rewrite Ht. simpl.
    eexists. rewrite <- !app_assoc. repeat split.
Qed.

Lemma guarded_ttl_raises (c : Redis) (identifier : string) (p1 : Process)
    (current : Z) (sv1 sv2 sv3 : Server) (e : exn) :
  incr c (rl_key identifier) (server p1) = (Returns current, sv1) ->
  after_arming settings c identifier current sv1 = Returns sv2 ->
  limit < current ->
  ttl c (rl_key identifier) sv2 = (Raises e, sv3) ->
  exists p',
    guarded settings c identifier p1 = (Returns fail_open, p')
    /\ calls p' = calls p1 ++ CallIncr (rl_key identifier)
                              :: arming_calls settings identifier current
                              ++ [CallTtl (rl_key identifier)]
    /\ log p' = log p1 ++ [check_failed_record identifier e].
Proof.
  intros Hi Ha Hlt Ht. unfold_guarded. rewrite Hi. simpl.
  assert (Hgt : (current >? limit)%Z = true) by lia.
  destruct (current =? 1)%Z; simpl.
  - destruct (expire c (rl_key identifier) window sv1) as [[b|e'] sv'];
      [|discriminate].
    inversion Ha; subst. simpl. rewrite Hgt. simpl. rewrite Ht. simpl.
    eexists. rewrite <- !app_assoc. repeat split.
  - inversion Ha; subst. simpl. rewrite Hgt. simpl. rewrite Ht. simpl.
    eexists. rewrite <- !app_assoc. repeat split.
Qed.

(** A store command raises exactly in the cases of [store_error]. *)
Lemma guarded_store_error (c : Redis) (identifier : string) (p1 : Process)
    (e : exn) :
  store_error settings c identifier (server p1) e ->
  exists p',
    guarded settings c identifier p1 = (Returns fail_open, p')
    /\ log p' = log p1 ++ [check_failed_record identifier e].
Proof.
  intros [e' sv' Hi | e' sv1 sv' Hi He | e' cur sv1 sv2 sv' Hi Hlt Ha Ht].
  - destruct (guarded_incr_raises c identifier p1 _ _ Hi) as (p' & E & _ & L).
    exists p'. split; assumption.
  - assert (Ha : after_arming settings c identifier 1 sv1 = Raises e').
    { unfold after_arming. simpl. rewrite He. reflexivity. }
    destruct (guarded_arming_raises c identifier p1 _ _ _ Hi Ha)
      as (p' & E & _ & L).
    exists p'. split; assumption.
  - destruct (guarded_ttl_raises c identifier p1 _ _ _ _ _ Hi Ha Hlt Ht)
      as (p' & E & _ & L).
    exists p'. split; assumption.
Qed.

(** The guarded part always returns; when its result carries no [remaining],
    a store command raised. *)
Lemma guarded_returns (c : Redis) (identifier : string) (p1 : Process) :
  exists r p',
    guarded settings c identifier p1 = (Returns r, p')
    /\ (remaining r = None ->
        exists e, store_error settings c identifier (server p1) e)
    /\ (allowed r = false ->
        remaining r = Some 0
        /\ exists n, retry_after r = Some n /\ (0 < window -> 0 < n))
    /\ (allowed r = true -> retry_after r = None).
Proof.
  destruct (incr c (rl_key identifier) (server p1)) as [[cur|e] sv1] eqn:Hi.
  2:{ destruct (guarded_incr_raises c identifier p1 _ _ Hi) as (p' & E & _).
      exists fail_open, p'. split; [exact E|]. repeat split; try discriminate.
      intros _. exists e. eapply incr_raises; eassumption. }
  destruct (after_arming settings c identifier cur sv1) as [sv2|e] eqn:Ha.
  2:{ destruct (guarded_arming_raises c identifier p1 _ _ _ Hi Ha)
        as (p' & E & _).
      exists fail_open, p'. split; [exact E|]. repeat split; try discriminate.
      intros _. exists e. unfold after_arming in Ha.
      destruct (cur =? 1)%Z eqn:H1; [|discriminate].
      apply Z.eqb_eq in H1. subst cur.
      destruct (expire c (rl_key identifier) window sv1) as [[b|e'] sv'] eqn:He;
        [discriminate|].
      inversion Ha; subst. eapply expire_raises; eassumption. }
  destruct (Z_le_gt_dec cur limit) as [Hle|Hgt].
  - destruct (guarded_under_limit c identifier p1 _ _ _ Hi Ha Hle)
      as (p' & E & _).
    eexists _, p'. split; [exact E|]. simpl. repeat split; discriminate.
  - assert (Hlt : limit < cur) by lia.
    destruct (ttl c (rl_key identifier) sv2) as [[t|e] sv3] eqn:Ht.
    + destruct (guarded_over_limit c identifier p1 _ _ _ _ _ Hi Ha Hlt Ht)
        as (p' & E & _).
      eexists _, p'. split; [exact E|]. unfold decision_for_count.
      assert (G : (cur >? limit)%Z = true) by lia. rewrite G. simpl.
      repeat split; try discriminate.
      eexists. split; [reflexivity|]. intros Hw.
      destruct t as [n|]; [|exact Hw].
      destruct (n >? 0)%Z eqn:Hn; [lia|exact Hw].
    + destruct (guarded_ttl_raises c identifier p1 _ _ _ _ _ Hi Ha Hlt Ht)
        as (p' & E & _).
      exists fail_open, p'. split; [exact E|].
      repeat split; try discriminate.
      intros _. exists e. eapply ttl_raises; eassumption.
Qed.

(** ** The decision *)

(** C1 (as amended). Over-limit branch: when the increment returns
    [current] with [current > limit] and the store commands that follow
    return (the [expire] call sent when [current] is 1, then the
    time-to-live read), the request is denied with [remaining = 0];
    [retry_after] is the time-to-live the store reports when that is
    positive, and the configured window length when the store reports none
    or a non-positive value. *)
Theorem over_limit_denied (identifier : string) (p p1 : Process) (c : Redis)
    (current : Z) (sv1 sv2 sv3 : Server) (t : option Z) :
  enabled = true ->
  get_client p = (Returns (Some c), p1) ->
  incr c (rl_key identifier) (server p1) = (Returns current, sv1) ->
  limit < current ->
  after_arming settings c identifier current sv1 = Returns sv2 ->
  ttl c (rl_key identifier) sv2 = (Returns t, sv3) ->
  exists r p',
    check identifier p = (Returns r, p')
    /\ allowed r = false
    /\ remaining r = Some 0
    /\ (forall n, t = Some n -> 0 < n -> retry_after r = Some n)
    /\ (t = None \/ (exists n, t = Some n /\ n <= 0) ->
        retry_after r = Some window).
Proof.
  intros Hen Hg Hi Hlt Ha Ht.
  destruct (guarded_over_limit c identifier p1 _ _ _ _ _ Hi Ha Hlt Ht)
    as (p' & E & _).
  exists (decision_for_count limit window current t), p'.
  split; [rewrite (check_with_client identifier p p1 c Hen Hg); exact E|].
  unfold decision_for_count.
  assert (G : (current >? limit)%Z = true) by lia. rewrite G. simpl.
  repeat split.
  - intros n -> Hn. assert (N : (n >? 0)%Z = true) by lia.
    rewrite N. reflexivity.
  - intros [-> | (n & -> & Hn)]; [reflexivity|].
    assert (N : (n >? 0)%Z = false) by lia. rewrite N. reflexivity.
Qed.

(** C2 (as amended). Under-limit branch: when the increment returns
    [current] with [current <= limit] and the [expire] call sent when
    [current] is 1 returns, the request is allowed, [retry_after] is absent
    and [remaining] is [limit - current] floored at 0, which is
    [limit - current] itself in this branch. *)
Theorem under_limit_allowed (identifier : string) (p p1 : Process)
    (c : Redis) (current : Z) (sv1 sv2 : Server) :
  enabled = true ->
  get_client p = (Returns (Some c), p1) ->
  incr c (rl_key identifier) (server p1) = (Returns current, sv1) ->
  current <= limit ->
  after_arming settings c identifier current sv1 = Returns sv2 ->
  exists r p',
    check identifier p = (Returns r, p')
    /\ allowed r = true
    /\ retry_after r = None
    /\ remaining r = Some (Z.max (limit - current) 0)
    /\ remaining r = Some (limit - current).
Proof.
  intros Hen Hg Hi Hle Ha.
  destruct (guarded_under_limit c identifier p1 _ _ _ Hi Ha Hle)
    as (p' & E & _).
  eexists _, p'.
  split; [rewrite (check_with_client identifier p p1 c Hen Hg); exact E|].
  simpl. repeat split. f_equal. lia.
Qed.


(** The [expire] calls of a check, by the value the increment returned. *)
Lemma expiry_calls_of_check (identifier : string) (p p1 : Process)
    (c : Redis) (current : Z) (sv1 : Server) :
  enabled = true ->
  get_client p = (Returns (Some c), p1) ->
  incr c (rl_key identifier) (server p1) = (Returns current, sv1) ->
  (current = 1 ->
   expiry_calls (calls_since p (snd (check identifier p)))
   = [(rl_key identifier, window)])
  /\ (current <> 1 ->
      expiry_calls (calls_since p (snd (check identifier p))) = []).
Proof.
  intros Hen Hg Hi.
  rewrite (check_with_client identifier p p1 c Hen Hg).
  destruct (get_client_calls p p1 _ Hg) as (cs & Hcs & Hconn).
  assert (Hsince : forall p' ds,
             calls p' = calls p1 ++ ds ->
             expiry_calls (calls_since p p') = expiry_calls ds).
  { intros p' ds Hp'. unfold calls_since.
    rewrite Hp', Hcs, <- app_assoc, drop_app_length, expiry_calls_app.
    rewrite (expiry_calls_connect cs Hconn). reflexivity. }
  assert (Harm : forall rest,
             expiry_calls (CallIncr (rl_key identifier)
                           :: arming_calls settings identifier current
                           ++ rest)
             = expiry_calls (arming_calls settings identifier current)
               ++ expiry_calls rest).
  { intros rest. simpl. apply expiry_calls_app. }
  assert (Hmain :
    expiry_calls (calls_since p (snd (guarded settings c identifier p1)))
    = expiry_calls (arming_calls settings identifier current)).
  { destruct (after_arming settings c identifier current sv1)
      as [sv2|e] eqn:Ha.
    - destruct (Z_le_gt_dec current limit) as [Hle|Hgt].
      + destruct (guarded_under_limit c identifier p1 _ _ _ Hi Ha Hle)
          as (p' & E & C & _).
        rewrite E. simpl. rewrite (Hsince p' _ C). reflexivity.
      + assert (Hlt : limit < current) by lia.
        destruct (ttl c (rl_key identifier) sv2) as [[t|e] sv3] eqn:Ht.
        * destruct (guarded_over_limit c identifier p1 _ _ _ _ _
                      Hi Ha Hlt Ht) as (p' & E & C & _).
          rewrite E. simpl. rewrite (Hsince p' _ C), Harm. simpl.
          apply app_nil_r.
        * destruct (guarded_ttl_raises c identifier p1 _ _ _ _ _
                      Hi Ha Hlt Ht) as (p' & E & C & _).
          rewrite E. simpl. rewrite (Hsince p' _ C), Harm. simpl.
          apply app_nil_r.
    - destruct (guarded_arming_raises c identifier p1 _ _ _ Hi Ha)
        as (p' & E & C & _).
      rewrite E. simpl. rewrite (Hsince p' _ C).
      unfold after_arming in Ha. unfold arming_calls.
      destruct (current =? 1)%Z; [reflexivity|discriminate]. }
  rewrite Hmain. unfold arming_calls. split.
  - intros ->. reflexivity.
  - intros Hne. assert (N : (current =? 1)%Z = false) by lia.
    rewrite N. reflexivity.
Qed.

(** The server the guarded part leaves, by the replies of the store. *)
Lemma guarded_server (c : Redis) (identifier : string) (p1 : Process) :
  server (snd (guarded settings c identifier p1))
  = match incr c (rl_key identifier) (server p1) with
    | (Raises _, sv1) => sv1
    | (Returns current, sv1) =>
        if (current =? 1)%Z then
          match expire c (rl_key identifier) window sv1 with
          | (Returns _, sv2) =>
              if (current >? limit)%Z
              then snd (ttl c (rl_key identifier) sv2)
              else sv2
          | (Raises _, sv2) => sv2
          end
        else if (current >? limit)%Z
             then snd (ttl c (rl_key identifier) sv1)
             else sv1
    end.
Proof.
  unfold_guarded.
  destruct (incr c (rl_key identifier) (server p1)) as [[cur|e] sv1]; simpl;
    [|reflexivity].
  destruct (cur =? 1)%Z; simpl.
  - destruct (expire c (rl_key identifier) window sv1) as [[b|e] sv2]; simpl;
      [|reflexivity].
    destruct (cur >? limit)%Z; simpl; [|reflexivity].
    destruct (ttl c (rl_key identifier) sv2) as [[t|e] sv3]; reflexivity.
  - destruct (cur >? limit)%Z; simpl; [|reflexivity].
    destruct (ttl c (rl_key identifier) sv1) as [[t|e] sv3]; reflexivity.
Qed.

(** C4. The expiry is set, to the configured window length, exactly when the
    increment returns 1: the check then sends one [expire] call for the
    identifier's key and the window length, and the store is left as that
    [expire] command leaves it (or as the time-to-live read that follows
    leaves it).  For any other returned value the check sends no [expire]
    call at all, and the store goes from the increment straight to the end
    of the check, or to the time-to-live read: nothing resets or extends the
    key's time-to-live. *)
Theorem expiry_armed_on_first_hit (identifier : string) (p p1 : Process)
    (c : Redis) (current : Z) (sv1 : Server) :
  enabled = true ->
  get_client p = (Returns (Some c), p1) ->
  incr c (rl_key identifier) (server p1) = (Returns current, sv1) ->
  (current = 1 ->
   expiry_calls (calls_since p (snd (check identifier p)))
   = [(rl_key identifier, window)]
   /\ server (snd (check identifier p))
      = match expire c (rl_key identifier) window sv1 with
        | (Returns _, sv2) =>
            if (1 >? limit)%Z
            then snd (ttl c (rl_key identifier) sv2)
            else sv2
        | (Raises _, sv2) => sv2
        end)
  /\ (current <> 1 ->
      expiry_calls (calls_since p (snd (check identifier p))) = []
      /\ server (snd (check identifier p))
         = if (current >? limit)%Z
           then snd (ttl c (rl_key identifier) sv1)
           else sv1).
Proof.
  intros Hen Hg Hi.
  destruct (expiry_calls_of_check identifier p p1 c current sv1 Hen Hg Hi)
    as [Hone Hnone].
  assert (Hsv := guarded_server c identifier p1).
  rewrite <- (check_with_client identifier p p1 c Hen Hg) in Hsv.
  rewrite Hi in Hsv. split.
  - intros ->. split; [apply Hone; reflexivity|]. exact Hsv.
  - intros Hne. split; [apply Hnone; exact Hne|].
    assert (N : (current =? 1)%Z = false) by lia.
    rewrite N in Hsv. exact Hsv.
Qed.

(** C5 (as amended). After an increment that returned 1: if the [expire]
    call raises, the count is not evaluated against the limit; the error is
    caught and logged and the fail-open result is returned, with no
    time-to-live read.  If the [expire] call returns, whatever value it
    returns, the request is evaluated against the limit and the result is
    the decision the count dictates. *)
Theorem expire_failure_fails_open (identifier : string) (p p1 : Process)
    (c : Redis) (sv1 : Server) :
  enabled = true ->
  get_client p = (Returns (Some c), p1) ->
  incr c (rl_key identifier) (server p1) = (Returns 1, sv1) ->
  (forall e sv2,
      expire c (rl_key identifier) window sv1 = (Raises e, sv2) ->
      exists p',
        check identifier p = (Returns fail_open, p')
        /\ log p' = log p1 ++ [check_failed_record identifier e]
        /\ calls p' = calls p1 ++ [CallIncr (rl_key identifier);
                                   CallExpire (rl_key identifier) window])
  /\ (forall b sv2 t,
        expire c (rl_key identifier) window sv1 = (Returns b, sv2) ->
        (limit < 1 ->
         exists sv3, ttl c (rl_key identifier) sv2 = (Returns t, sv3)) ->
        exists p',
          check identifier p
          = (Returns (decision_for_count limit window 1 t), p')
          /\ log p' = log p1).
Proof.
  intros Hen Hg Hi.
  rewrite (check_with_client identifier p p1 c Hen Hg). split.
  - intros e sv2 He.
    assert (Ha : after_arming settings c identifier 1 sv1 = Raises e).
    { unfold after_arming. simpl. rewrite He. reflexivity. }
    destruct (guarded_arming_raises c identifier p1 _ _ _ Hi Ha)
      as (p' & E & C & L).
    exists p'. repeat split; assumption.
  - intros b sv2 t He Ht.
    assert (Ha : after_arming settings c identifier 1 sv1 = Returns sv2).
    { unfold after_arming. simpl. rewrite He. reflexivity. }
    destruct (Z_le_gt_dec 1 limit) as [Hl|Hl].
    + destruct (guarded_under_limit c identifier p1 _ _ _ Hi Ha Hl)
        as (p' & E & _ & L).
      exists p'. split; [|exact L]. rewrite E. unfold decision_for_count.
      assert (G : (1 >? limit)%Z = false) by lia. rewrite G. reflexivity.
    + assert (Hlt : limit < 1) by lia.
      destruct (Ht Hlt) as (sv3 & Ht').
      destruct (guarded_over_limit c identifier p1 _ _ _ _ _ Hi Ha Hlt Ht')
        as (p' & E & _ & L).
      exists p'. split; assumption.
Qed.

(** C6. The check always returns a result and never raises; whenever one of
    the store commands it sends ([incr], [expire] or [ttl]) raises, the
    error is caught and logged and the result is the fail-open one: allowed,
    with [retry_after] and [remaining] absent. *)
Theorem store_errors_fail_open (identifier : string) (p : Process) :
  (exists r p', check identifier p = (Returns r, p'))
  /\ (forall c p1 e,
        enabled = true ->
        get_client p = (Returns (Some c), p1) ->
        store_error settings c identifier (server p1) e ->
        exists p',
          check identifier p =
            (Returns {| allowed := true; retry_after := None;
                        remaining := None |}, p')
          /\ log p' = log p1 ++ [check_failed_record identifier e]).
Proof.
  split.
  - destruct enabled eqn:Hen.
    + destruct (get_client_returns p) as ([c|] & p1 & Hg & _).
      * rewrite (check_with_client identifier p p1 c Hen Hg).
        destruct (guarded_returns c identifier p1) as (r & p' & E & _).
        exists r, p'. exact E.
      * exists fail_open, p1. apply check_no_client; assumption.
    + exists fail_open, p. apply check_disabled; assumption.
  - intros c p1 e Hen Hg Hs.
    rewrite (check_with_client identifier p p1 c Hen Hg).
    apply guarded_store_error. exact Hs.
Qed.

(** C7. With rate limiting disabled the check returns the fail-open result
    and leaves the process untouched: no connection attempt, no store
    command, no log record, however many times and for whatever identifiers
    it is called. *)
Theorem disabled_short_circuit (identifiers : list string) (p : Process) :
  enabled = false ->
  (forall identifier,
      check identifier p =
        (Returns {| allowed := true; retry_after := None;
                    remaining := None |}, p))
  /\ check_all settings identifiers p
     = (map (fun _ => Returns fail_open) identifiers, p).
Proof.
  intros Hen. split.
  - intros identifier. apply check_disabled. exact Hen.
  - induction identifiers as [|i rest IH]; simpl; [reflexivity|].
    rewrite (check_disabled i p Hen), IH. reflexivity.
Qed.

(** C8. When the connection getter returns [None] the check returns the
    fail-open result and does nothing after the getter: the process is left
    as the getter left it, and the only calls made are those of the
    connection attempt. *)
Theorem unavailable_fails_open (identifier : string) (p p1 : Process) :
  enabled = true ->
  get_client p = (Returns None, p1) ->
  check identifier p =
    (Returns {| allowed := true; retry_after := None; remaining := None |},
     p1)
  /\ exists cs,
       calls p1 = calls p ++ cs /\ forallb is_connect_call cs = true.
Proof.
  intros Hen Hg. split.
  - apply check_no_client; assumption.
  - eapply get_client_calls. exact Hg.
Qed.

(** C9. Shape of every result (for a positive window length): a denial
    carries a positive [retry_after] and [remaining = 0]; an admission
    carries no [retry_after]; and [remaining] is absent exactly when the
    decision was reached without a completed store evaluation. *)
Theorem result_shape (identifier : string) (p p' : Process)
    (r : RateLimitResult) :
  0 < window ->
  check identifier p = (Returns r, p') ->
  (allowed r = false ->
   (exists n, retry_after r = Some n /\ 0 < n) /\ remaining r = Some 0)
  /\ (allowed r = true -> retry_after r = None)
  /\ (remaining r = None <-> no_store_evaluation settings identifier p).
Proof.
  intros Hw E. unfold no_store_evaluation.
  destruct enabled eqn:Hen.
  2:{ rewrite (check_disabled identifier p Hen) in E. inversion E; subst.
      simpl. repeat split; try discriminate. intros _. left. reflexivity. }
  destruct (get_client_returns p) as ([c|] & p1 & Hg & _).
  2:{ rewrite (check_no_client identifier p p1 Hen Hg) in E.
      inversion E; subst. simpl. repeat split; try discriminate.
      intros _. right. left. exists p'. exact Hg. }
  rewrite (check_with_client identifier p p1 c Hen Hg) in E.
  destruct (guarded_returns c identifier p1)
    as (r' & q & E' & Hnone & Hden & Hall).
  rewrite E' in E. inversion E; subst r' q. clear E.
  split; [|split; [exact Hall|split]].
  - intros Hd. destruct (Hden Hd) as (Hr & n & Hn & Hpos).
    split; [|exact Hr]. exists n. split; [exact Hn|]. apply Hpos. exact Hw.
  - intros Hr. right. right. destruct (Hnone Hr) as (e & Hs).
    exists c, p1, e. split; assumption.
  - intros [Hdis | [(q & Hq) | (c' & q & e & Hq & Hs)]].
    + congruence.
    + congruence.
    + rewrite Hg in Hq. inversion Hq; subst c' q.
      destruct (guarded_store_error c identifier p1 e Hs) as (q & Eq & _).
      rewrite E' in Eq. inversion Eq; subst. reflexivity.
Qed.

(** ** An unreachable store

    While the store stays unreachable, every check of a process without a
    client, for any identifiers and any number of calls, fails open. *)
Lemma unreachable_store_always_allows (down : Server -> Prop)
    (identifiers : list string) :
  stays_down settings down ->
  forall p,
    down (server p) ->
    _redis_client p = None ->
    fst (check_all settings identifiers p)
    = map (fun _ => Returns fail_open) identifiers.
Proof.
  intros Hdown.
  assert (Hget : forall p,
             down (server p) -> _redis_client p = None ->
             exists p1, get_client p = (Returns None, p1)
                        /\ down (server p1) /\ _redis_client p1 = None).
  { intros p Hp Hc. specialize (Hdown (server p) Hp).
    unfold get_redis_client. unfold_py. rewrite Hc. simpl.
    destruct (from_url (redis_url settings) (server p)) as [[c|e] sv]; simpl.
    - destruct (ping c sv) as [[b|e] sv']; simpl; [contradiction|].
      eexists. split; [reflexivity|]. split; [exact Hdown|reflexivity].
    - eexists. split; [reflexivity|]. split; [exact Hdown|reflexivity]. }
  induction identifiers as [|i rest IH]; intros p Hp Hc; simpl;
    [reflexivity|].
  destruct enabled eqn:Hen.
  - destruct (Hget p Hp Hc) as (p1 & Hg & Hp1 & Hc1).
    rewrite (check_no_client i p p1 Hen Hg).
    specialize (IH p1 Hp1 Hc1).
    destruct (check_all settings rest p1) as [rs p2]. simpl in *.
    rewrite IH. reflexivity.
  - rewrite (check_disabled i p Hen).
    specialize (IH p Hp Hc).
    destruct (check_all settings rest p) as [rs p2]. simpl in *.
    rewrite IH. reflexivity.
Qed.

(** ** What one check does to the process *)

Lemma ttl_calls_app (cs ds : list Call) :
  ttl_calls (cs ++ ds) = ttl_calls cs ++ ttl_calls ds.
Proof.
  induction cs as [|c cs IH]; simpl; [reflexivity|].
  destruct c; simpl; rewrite IH; reflexivity.
Qed.

Lemma ttl_calls_connect (cs : list Call) :
  forallb is_connect_call cs = true -> ttl_calls cs = [].
Proof.
  induction cs as [|c cs IH]; simpl; [reflexivity|].
  destruct c; simpl; intros H; try discriminate; apply IH; assumption.
Qed.

Lemma rl_key_inj (a b : string) : rl_key a = rl_key b -> a = b.
Proof.
  unfold rl_key. intros H. cbv in H. congruence.
Qed.

Lemma calls_since_app (p p' : Process) (ds : list Call) :
  calls p' = calls p ++ ds -> calls_since p p' = ds.
Proof.
  intros H. unfold calls_since. rewrite H. apply drop_app_length.
Qed.

(** The guarded part returns, keeps the cached client, sends [incr] first,
    then at most an [expire] and a [ttl], and writes a log record only when
    it fails open. *)
Lemma guarded_frame (c : Redis) (identifier : string) (p1 : Process) :
  exists r p' ds,
    guarded settings c identifier p1 = (Returns r, p')
    /\ _redis_client p' = _redis_client p1
    /\ calls p' = calls p1 ++ CallIncr (rl_key identifier) :: ds
    /\ (ds = [] \/ ds = [CallExpire (rl_key identifier) window]
        \/ ds = [CallTtl (rl_key identifier)]
        \/ ds = [CallExpire (rl_key identifier) window;
                 CallTtl (rl_key identifier)])
    /\ ((remaining r <> None /\ log p' = log p1)
        \/ (r = fail_open
            /\ exists e, log p' = log p1 ++ [check_failed_record identifier e])).
Proof.
  unfold_guarded.
  destruct (incr c (rl_key identifier) (server p1)) as [[cur|e] sv1]; simpl.
  2:{ eexists _, _, []. repeat split; try reflexivity.
      - left. reflexivity.
      - right. split; [reflexivity|]. eexists. reflexivity. }
  destruct (cur =? 1)%Z; simpl.
  - destruct (expire c (rl_key identifier) window sv1) as [[b|e] sv2]; simpl.
    + destruct (cur >? limit)%Z; simpl.
      * destruct (ttl c (rl_key identifier) sv2) as [[t|e] sv3]; simpl.
        -- eexists _, _, [_; _]. rewrite <- !app_assoc. simpl.
           repeat split; try reflexivity.
           ++ right. right. right. reflexivity.
           ++ left. split; [discriminate|reflexivity].
        -- eexists _, _, [_; _]. rewrite <- !app_assoc. simpl.
           repeat split; try reflexivity.
           ++ right. right. right. reflexivity.
           ++ right. split; [reflexivity|]. eexists. reflexivity.
      * eexists _, _, [_]. rewrite <- !app_assoc. simpl.
        repeat split; try reflexivity.
        -- right. left. reflexivity.
        -- left. split; [discriminate|reflexivity].
    + eexists _, _, [_]. rewrite <- !app_assoc. simpl.
      repeat split; try reflexivity.
      * right. left. reflexivity.
      * right. split; [reflexivity|]. eexists. reflexivity.
  - destruct (cur >? limit)%Z; simpl.
    + destruct (ttl c (rl_key identifier) sv1) as [[t|e] sv3]; simpl.
      * eexists _, _, [_]. rewrite <- !app_assoc. simpl.
        repeat split; try reflexivity.
        -- right. right. left. reflexivity.
        -- left. split; [discriminate|reflexivity].
      * eexists _, _, [_]. rewrite <- !app_assoc. simpl.
        repeat split; try reflexivity.
        -- right. right. left. reflexivity.
        -- right. split; [reflexivity|]. eexists. reflexivity.
    + eexists _, _, []. repeat split; try reflexivity.
      * left. reflexivity.
      * left. split; [discriminate|reflexivity].
Qed.

Lemma check_cached (identifier : string) (p : Process) (c : Redis) :
  enabled = true ->
  _redis_client p = Some c ->
  check identifier p = guarded settings c identifier p.
Proof.
  intros Hen Hc. apply check_with_client; [exact Hen|].
  apply get_client_cached. exact Hc.
Qed.

(** One check, whatever the store does: it returns, sends the calls of at
    most one connection attempt and then at most three commands on the
    identifier's key, and with a cached client it keeps the client and
    writes a log record only when it fails open on a store error. *)
Lemma check_frame (identifier : string) (p : Process) :
  exists r p' cs ds,
    check identifier p = (Returns r, p')
    /\ calls p' = calls p ++ cs ++ ds
    /\ forallb is_connect_call cs = true
    /\ Forall (fun k => call_key k = Some (rl_key identifier)) ds
    /\ (length ds <= 3)%nat
    /\ (forall c, _redis_client p = Some c ->
          cs = [] /\ _redis_client p' = Some c
          /\ ((remaining r <> None \/ enabled = false) /\ log p' = log p
              \/ (enabled = true /\ r = fail_open
                  /\ exists e,
                       log p' = log p ++ [check_failed_record identifier e]))).
Proof.
  assert (Hshape : forall ds,
             ds = [] \/ ds = [CallExpire (rl_key identifier) window]
             \/ ds = [CallTtl (rl_key identifier)]
             \/ ds = [CallExpire (rl_key identifier) window;
                      CallTtl (rl_key identifier)] ->
             Forall (fun k => call_key k = Some (rl_key identifier))
                    (CallIncr (rl_key identifier) :: ds)
             /\ (length (CallIncr (rl_key identifier) :: ds) <= 3)%nat).
  { intros ds [-> | [-> | [-> | ->]]]; split; simpl; try lia;
      repeat constructor. }
  destruct enabled eqn:Hen.
  2:{ exists fail_open, p, [], []. rewrite app_nil_r.
      split; [apply check_disabled; exact Hen|].
      split; [reflexivity|]. split; [reflexivity|].
      split; [constructor|]. split; [simpl; lia|].
      intros c Hc. split; [reflexivity|]. split; [exact Hc|].
      left. split; [right|]; reflexivity. }
  destruct (_redis_client p) as [c|] eqn:Hc.
  - rewrite (check_cached identifier p c Hen Hc).
    destruct (guarded_frame c identifier p)
      as (r & p' & ds & E & Hkeep & Hcalls & Hds & Hlog).
    destruct (Hshape ds Hds) as [Hall Hlen].
    exists r, p', [], (CallIncr (rl_key identifier) :: ds).
    split; [exact E|]. split; [exact Hcalls|].
    split; [reflexivity|]. split; [exact Hall|]. split; [exact Hlen|].
    intros c' Hc'. inversion Hc'; subst c'.
    split; [reflexivity|]. split; [congruence|].
    destruct Hlog as [[Hr Hl] | [Hr He]].
    + left. split; [left; exact Hr|exact Hl].
    + right. split; [reflexivity|]. split; assumption.
  - destruct (get_client_attempt p Hc)
      as (r0 & p1 & cs & Hg & _ & Hcalls & Hconn & _).
    destruct r0 as [c|].
    + rewrite (check_with_client identifier p p1 c Hen Hg).
      destruct (guarded_frame c identifier p1)
        as (r & p' & ds & E & _ & Hcalls' & Hds & _).
      destruct (Hshape ds Hds) as [Hall Hlen].
      exists r, p', (CallFromUrl (redis_url settings) :: cs),
             (CallIncr (rl_key identifier) :: ds).
      split; [exact E|].
      split; [rewrite Hcalls', Hcalls, <- !app_assoc; reflexivity|].
      split; [exact Hconn|]. split; [exact Hall|]. split; [exact Hlen|].
      intros c' Hc'. discriminate.
    + exists fail_open, p1, (CallFromUrl (redis_url settings) :: cs), [].
      split; [apply check_no_client; assumption|].
      split; [rewrite app_nil_r; exact Hcalls|].
      split; [exact Hconn|]. split; [constructor|]. split; [simpl; lia|].
      intros c' Hc'. discriminate.
Qed.

(** ** Further properties of the limiter *)

(** X1. Key isolation: apart from the calls of a connection attempt, which
    come first, a check sends at most three store commands, and each of them
    is on the key of its own identifier.  Distinct identifiers have distinct
    keys, so no command is ever on the key of another identifier. *)
Theorem check_touches_only_own_key (identifier : string) (p : Process) :
  (exists cs ds,
      calls_since p (snd (check identifier p)) = cs ++ ds
      /\ forallb is_connect_call cs = true
      /\ (length ds <= 3)%nat
      /\ Forall (fun k => call_key k = Some (rl_key identifier)) ds)
  /\ (forall other, rl_key other = rl_key identifier -> other = identifier).
Proof.
  split; [|intros other; apply rl_key_inj].
  destruct (check_frame identifier p)
    as (r & p' & cs & ds & E & Hcalls & Hconn & Hall & Hlen & _).
  exists cs, ds. rewrite E. simpl.
  split; [apply calls_since_app; exact Hcalls|].
  split; [exact Hconn|]. split; [exact Hlen|exact Hall].
Qed.

(** X2. The time-to-live is read only for a request over the limit: after an
    increment returning [current] the check sends no [ttl] call when
    [current <= limit] or when the arming step raised, and exactly one, on
    the identifier's key, when [current > limit] and the arming step
    returned. *)
Theorem ttl_read_only_over_limit (identifier : string) (p p1 : Process)
    (c : Redis) (current : Z) (sv1 : Server) :
  enabled = true ->
  get_client p = (Returns (Some c), p1) ->
  incr c (rl_key identifier) (server p1) = (Returns current, sv1) ->
  ttl_calls (calls_since p (snd (check identifier p)))
  = match after_arming settings c identifier current sv1 with
    | Returns _ => if (current >? limit)%Z then [rl_key identifier] else []
    | Raises _ => []
    end.
Proof.
  intros Hen Hg Hi.
  rewrite (check_with_client identifier p p1 c Hen Hg).
  destruct (get_client_calls p p1 _ Hg) as (cs & Hcs & Hconn).
  assert (Hsince : forall p' ds,
             calls p' = calls p1 ++ ds ->
             ttl_calls (calls_since p p') = ttl_calls ds).
  { intros p' ds Hp'.
    rewrite (calls_since_app p p' (cs ++ ds)).
    - rewrite ttl_calls_app, (ttl_calls_connect cs Hconn). reflexivity.
    - rewrite Hp', Hcs, <- app_assoc. reflexivity. }
  assert (Harm : ttl_calls (arming_calls settings identifier current) = []).
  { unfold arming_calls. destruct (current =? 1)%Z; reflexivity. }
  destruct (after_arming settings c identifier current sv1)
    as [sv2|e] eqn:Ha.
  - destruct (Z_le_gt_dec current limit) as [Hle|Hgt].
    + assert (G : (current >? limit)%Z = false) by lia. rewrite G.
      destruct (guarded_under_limit c identifier p1 _ _ _ Hi Ha Hle)
        as (p' & E & C & _).
      rewrite E. simpl. rewrite (Hsince p' _ C). simpl. exact Harm.
    + assert (Hlt : limit < current) by lia.
      assert (G : (current >? limit)%Z = true) by lia. rewrite G.
      destruct (ttl c (rl_key identifier) sv2) as [[t|e] sv3] eqn:Ht.
      * destruct (guarded_over_limit c identifier p1 _ _ _ _ _
                    Hi Ha Hlt Ht) as (p' & E & C & _).
        rewrite E. simpl. rewrite (Hsince p' _ C). simpl.
        rewrite ttl_calls_app, Harm. reflexivity.
      * destruct (guarded_ttl_raises c identifier p1 _ _ _ _ _
                    Hi Ha Hlt Ht) as (p' & E & C & _).
        rewrite E. simpl. rewrite (Hsince p' _ C). simpl.
        rewrite ttl_calls_app, Harm. reflexivity.
  - destruct (guarded_arming_raises c identifier p1 _ _ _ Hi Ha)
      as (p' & E & C & _).
    rewrite E. simpl. rewrite (Hsince p' _ C). reflexivity.
Qed.

(** X3. A denial is never caused by the infrastructure: whenever a check
    returns [allowed = false], limiting is enabled, a client was obtained,
    the increment returned a count above the limit and the time-to-live read
    returned; the result is the decision that count dictates. *)
Theorem denial_only_over_limit (identifier : string) (p p' : Process)
    (r : RateLimitResult) :
  check identifier p = (Returns r, p') ->
  allowed r = false ->
  enabled = true
  /\ exists c p1 current sv1 sv2 t sv3,
       get_client p = (Returns (Some c), p1)
       /\ incr c (rl_key identifier) (server p1) = (Returns current, sv1)
       /\ limit < current
       /\ after_arming settings c identifier current sv1 = Returns sv2
       /\ ttl c (rl_key identifier) sv2 = (Returns t, sv3)
       /\ r = decision_for_count limit window current t.
Proof.
  intros E Hd.
  destruct enabled eqn:Hen.
  2:{ rewrite (check_disabled identifier p Hen) in E.
      inversion E; subst. discriminate. }
  split; [reflexivity|].
  destruct (get_client_returns p) as ([c|] & p1 & Hg & _).
  2:{ rewrite (check_no_client identifier p p1 Hen Hg) in E.
      inversion E; subst. discriminate. }
  rewrite (check_with_client identifier p p1 c Hen Hg) in E.
  destruct (incr c (rl_key identifier) (server p1)) as [[cur|e] sv1] eqn:Hi.
  2:{ destruct (guarded_incr_raises c identifier p1 _ _ Hi) as (q & Eq & _).
      rewrite Eq in E. inversion E; subst. discriminate. }
  destruct (after_arming settings c identifier cur sv1) as [sv2|e] eqn:Ha.
  2:{ destruct (guarded_arming_raises c identifier p1 _ _ _ Hi Ha)
        as (q & Eq & _).
      rewrite Eq in E. inversion E; subst. discriminate. }
  destruct (Z_le_gt_dec cur limit) as [Hle|Hgt].
  { destruct (guarded_under_limit c identifier p1 _ _ _ Hi Ha Hle)
      as (q & Eq & _).
    rewrite Eq in E. inversion E; subst. discriminate. }
  assert (Hlt : limit < cur) by lia.
  destruct (ttl c (rl_key identifier) sv2) as [[t|e] sv3] eqn:Ht.
  2:{ destruct (guarded_ttl_raises c identifier p1 _ _ _ _ _ Hi Ha Hlt Ht)
        as (q & Eq & _).
      rewrite Eq in E. inversion E; subst. discriminate. }
  destruct (guarded_over_limit c identifier p1 _ _ _ _ _ Hi Ha Hlt Ht)
    as (q & Eq & _).
  rewrite Eq in E. inversion E; subst.
  exists c, p1, cur, sv1, sv2, t, sv3. repeat split; assumption.
Qed.

(** X4. Once a client is cached, no sequence of checks drops it or
    reconnects: whatever the store answers, also when store commands raise,
    every check returns a result, the cached client stays the same and no
    [from_url] or [ping] call is sent. *)
Theorem cached_client_survives_checks (identifiers : list string)
    (p : Process) (c : Redis) :
  _redis_client p = Some c ->
  _redis_client (snd (check_all settings identifiers p)) = Some c
  /\ Forall (fun k => is_connect_call k = false)
            (calls_since p (snd (check_all settings identifiers p)))
  /\ Forall (fun o => exists r, o = Returns r)
            (fst (check_all settings identifiers p)).
Proof.
  intros Hc.
  assert (H : exists ds,
             calls (snd (check_all settings identifiers p)) = calls p ++ ds
             /\ Forall (fun k => is_connect_call k = false) ds
             /\ _redis_client (snd (check_all settings identifiers p))
                = Some c
             /\ Forall (fun o => exists r, o = Returns r)
                       (fst (check_all settings identifiers p))).
  { revert p Hc. induction identifiers as [|i rest IH]; intros p Hc; simpl.
    - exists []. rewrite app_nil_r. repeat split; try constructor.
      exact Hc.
    - destruct (check_frame i p)
        as (r & p' & cs & ds & E & Hcalls & _ & Hall & _ & Hcached).
      destruct (Hcached c Hc) as (-> & Hc' & _). simpl in Hcalls.
      rewrite E.
      destruct (IH p' Hc') as (ds' & Hcalls' & Hall' & Hc'' & Hres).
      destruct (check_all settings rest p') as [rs p'']. simpl in *.
      exists (ds ++ ds').
      split; [rewrite Hcalls', Hcalls, <- app_assoc; reflexivity|].
      split.
      { apply Forall_app. split; [|exact Hall'].
        eapply Forall_impl; [exact Hall|].
        intros k Hk. destruct k; simpl in *; try discriminate; reflexivity. }
      split; [exact Hc''|].
      constructor; [exists r; reflexivity|exact Hres]. }
  destruct H as (ds & Hcalls & Hall & Hc' & Hres).
  split; [exact Hc'|]. split; [|exact Hres].
  rewrite (calls_since_app _ _ ds Hcalls). exact Hall.
Qed.

(** X5. The getter's answer is what it leaves cached, and a success is
    idempotent: after a call that returned a client, the client is cached
    and the next call returns the same client without touching the
    process. *)
Theorem getter_success_is_cached (p p1 : Process) (c : Redis) :
  get_client p = (Returns (Some c), p1) ->
  _redis_client p1 = Some c
  /\ get_client p1 = (Returns (Some c), p1).
Proof.
  intros E.
  assert (Hc : _redis_client p1 = Some c).
  { destruct (get_client_returns p) as (r & q & E' & Hr).
    rewrite E in E'. congruence. }
  split; [exact Hc|]. apply get_client_cached. exact Hc.
Qed.

(** X6. With a cached client the log is quiet unless a store command
    raises: a check that reaches a decision on the count, admission or
    denial, writes no log record; a check that fails open on a store error
    writes exactly one, the error record naming the identifier. *)
Theorem log_only_on_store_error (identifier : string) (p p' : Process)
    (c : Redis) (r : RateLimitResult) :
  enabled = true ->
  _redis_client p = Some c ->
  check identifier p = (Returns r, p') ->
  (remaining r <> None -> log p' = log p)
  /\ (remaining r = None ->
      exists e, log p' = log p ++ [check_failed_record identifier e]).
Proof.
  intros Hen Hc E.
  destruct (check_frame identifier p)
    as (r0 & q & cs & ds & E0 & _ & _ & _ & _ & Hcached).
  rewrite E in E0. inversion E0; subst r0 q. clear E0.
  destruct (Hcached c Hc) as (_ & _ & [[Hr Hl] | (_ & Hr & He)]).
  - destruct Hr as [Hr|Hr]; [|congruence].
    split; [intros _; exact Hl|]. intros Hn. contradiction.
  - split; [|intros _; exact He].
    intros Hn. subst r. simpl in Hn. contradiction.
Qed.

(** X13. A client is handed out only after the liveness probe returned:
    when a process without a cached client obtains one, [from_url] returned
    it and [ping] on it returned, and the server is left as [ping] left it.
    The value [ping] returns is not inspected: a probe answering [False]
    counts as passed. *)
Theorem fresh_client_was_pinged (p p' : Process) (c : Redis) :
  _redis_client p = None ->
  get_client p = (Returns (Some c), p') ->
  exists sv b,
    from_url (redis_url settings) (server p) = (Returns c, sv)
    /\ ping c sv = (Returns b, server p')
    /\ calls_since p p' = [CallFromUrl (redis_url settings); CallPing].
Proof.
  intros Hc. unfold get_redis_client, calls_since. unfold_py.
  rewrite Hc. simpl.
  destruct (from_url (redis_url settings) (server p)) as [[c0|e] sv] eqn:Ef;
    simpl.
  - destruct (ping c0 sv) as [[b|e] sv'] eqn:Ep; simpl.
    + intros E. inversion E; subst. simpl.
      exists sv, b. split; [reflexivity|]. split; [exact Ep|].
      rewrite <- app_assoc. apply drop_app_length.
    + intros E. discriminate.
  - intros E. discriminate.
Qed.

(** X14. [remaining] is never negative: whatever count the store returns,
    a result that carries [remaining] carries a value of at least 0, and a
    denial carries exactly 0. *)
Theorem remaining_never_negative (identifier : string) (p p' : Process)
    (r : RateLimitResult) (n : Z) :
  check identifier p = (Returns r, p') ->
  remaining r = Some n ->
  0 <= n /\ (allowed r = false -> n = 0).
Proof.
  intros E Hn.
  destruct enabled eqn:Hen.
  2:{ rewrite (check_disabled identifier p Hen) in E.
      inversion E; subst. discriminate. }
  destruct (get_client_returns p) as ([c|] & p1 & Hg & _).
  2:{ rewrite (check_no_client identifier p p1 Hen Hg) in E.
      inversion E; subst. discriminate. }
  rewrite (check_with_client identifier p p1 c Hen Hg) in E.
  destruct (incr c (rl_key identifier) (server p1)) as [[cur|e] sv1] eqn:Hi.
  2:{ destruct (guarded_incr_raises c identifier p1 _ _ Hi) as (q & Eq & _).
      rewrite Eq in E. inversion E; subst. discriminate. }
  destruct (after_arming settings c identifier cur sv1) as [sv2|e] eqn:Ha.
  2:{ destruct (guarded_arming_raises c identifier p1 _ _ _ Hi Ha)
        as (q & Eq & _).
      rewrite Eq in E. inversion E; subst. discriminate. }
  destruct (Z_le_gt_dec cur limit) as [Hle|Hgt].
  { destruct (guarded_under_limit c identifier p1 _ _ _ Hi Ha Hle)
      as (q & Eq & _).
    rewrite Eq in E. inversion E; subst. simpl in Hn.
    inversion Hn; subst. split; [lia|discriminate]. }
  assert (Hlt : limit < cur) by lia.
  destruct (ttl c (rl_key identifier) sv2) as [[t|e] sv3] eqn:Ht.
  2:{ destruct (guarded_ttl_raises c identifier p1 _ _ _ _ _ Hi Ha Hlt Ht)
        as (q & Eq & _).
      rewrite Eq in E. inversion E; subst. discriminate. }
  destruct (guarded_over_limit c identifier p1 _ _ _ _ _ Hi Ha Hlt Ht)
    as (q & Eq & _).
  rewrite Eq in E. inversion E; subst. unfold decision_for_count in Hn.
  assert (G : (cur >? limit)%Z = true) by lia. rewrite G in Hn.
  simpl in Hn. inversion Hn; subst. split; [lia|reflexivity].
Qed.

(** ** A whole window on a counting store *)

Lemma counted_admission (c : Redis) (identifier : string)
    (count : Server -> Z) (p : Process) :
  enabled = true ->
  counts_requests settings c (rl_key identifier) count ->
  _redis_client p = Some c ->
  count (server p) + 1 <= limit ->
  exists p',
    check identifier p
    = (Returns {| allowed := true; retry_after := None;
                  remaining := Some (limit - (count (server p) + 1)) |}, p')
    /\ _redis_client p' = Some c
    /\ count (server p') = count (server p) + 1.
Proof.
  intros Hen [Hincr Hexp] Hc Hle.
  rewrite (check_cached identifier p c Hen Hc).
  destruct (Hincr (server p)) as (sv1 & Ei & Ci).
  assert (G : (count (server p) + 1 >? limit)%Z = false) by lia.
  assert (M : Z.max (limit - (count (server p) + 1)) 0
              = limit - (count (server p) + 1)) by lia.
  unfold_guarded. rewrite Ei. simpl.
  destruct (count (server p) + 1 =? 1)%Z; simpl.
  - destruct (Hexp sv1) as (b & sv2 & Ee & Ce). rewrite Ee. simpl.
    rewrite G, M. eexists. split; [reflexivity|]. simpl.
    split; [exact Hc|congruence].
  - rewrite G, M. eexists. split; [reflexivity|]. simpl.
    split; [exact Hc|exact Ci].
Qed.

Lemma counted_denial (c : Redis) (identifier : string)
    (count : Server -> Z) (p : Process) :
  enabled = true ->
  counts_requests settings c (rl_key identifier) count ->
  reports_ttl c (rl_key identifier) count ->
  _redis_client p = Some c ->
  limit <= count (server p) ->
  exists o p',
    check identifier p = (o, p')
    /\ is_denial o
    /\ _redis_client p' = Some c
    /\ count (server p') = count (server p) + 1.
Proof.
  intros Hen [Hincr Hexp] Httl Hc Hle.
  rewrite (check_cached identifier p c Hen Hc).
  destruct (Hincr (server p)) as (sv1 & Ei & Ci).
  assert (G : (count (server p) + 1 >? limit)%Z = true) by lia.
  unfold_guarded. rewrite Ei. simpl.
  destruct (count (server p) + 1 =? 1)%Z; simpl.
  - destruct (Hexp sv1) as (b & sv2 & Ee & Ce). rewrite Ee. simpl.
    rewrite G. simpl.
    destruct (Httl sv2) as (t & sv3 & Et & Ct). rewrite Et. simpl.
    eexists _, _. split; [reflexivity|]. simpl.
    split; [eexists _, _; repeat split|].
    split; [exact Hc|congruence].
  - rewrite G. simpl.
    destruct (Httl sv1) as (t & sv3 & Et & Ct). rewrite Et. simpl.
    eexists _, _. split; [reflexivity|]. simpl.
    split; [eexists _, _; repeat split|].
    split; [exact Hc|congruence].
Qed.

(** X7. The first requests of a window are admitted one by one: on a store
    that counts the requests of the identifier, with a cached client and
    [from] requests counted so far, [n] checks in a row with
    [from + n <= limit] are all allowed and report [remaining] going down by
    one each time, from [limit - from - 1]. *)
Theorem admissions_within_limit (c : Redis) (identifier : string)
    (count : Server -> Z) (n : nat) (p : Process) :
  enabled = true ->
  counts_requests settings c (rl_key identifier) count ->
  _redis_client p = Some c ->
  count (server p) + Z.of_nat n <= limit ->
  fst (check_all settings (repeat identifier n) p)
  = admissions limit (count (server p)) n.
Proof.
  intros Hen Hcount. revert p.
  induction n as [|n IH]; intros p Hc Hle; [reflexivity|].
  simpl repeat. simpl admissions. simpl check_all.
  destruct (counted_admission c identifier count p Hen Hcount Hc)
    as (p' & E & Hc' & Hn); [lia|].
  rewrite E.
  specialize (IH p' Hc'). rewrite Hn in IH.
  destruct (check_all settings (repeat identifier n) p') as [rs p''].
  simpl in *. rewrite IH; [reflexivity|lia].
Qed.

(** X8. Beyond the limit every request is refused: on a store that counts
    the requests of the identifier and answers the time-to-live reads, once
    [limit] requests are counted every further check of that identifier is a
    denial with [remaining = 0], however many follow. *)
Theorem denials_beyond_limit (c : Redis) (identifier : string)
    (count : Server -> Z) (n : nat) (p : Process) :
  enabled = true ->
  counts_requests settings c (rl_key identifier) count ->
  reports_ttl c (rl_key identifier) count ->
  _redis_client p = Some c ->
  limit <= count (server p) ->
  Forall is_denial (fst (check_all settings (repeat identifier n) p)).
Proof.
  intros Hen Hcount Httl. revert p.
  induction n as [|n IH]; intros p Hc Hle; [constructor|].
  simpl repeat. simpl check_all.
  destruct (counted_denial c identifier count p Hen Hcount Httl Hc Hle)
    as (o & p' & E & Hd & Hc' & Hn).
  rewrite E.
  assert (Hle' : limit <= count (server p')) by lia.
  specialize (IH p' Hc' Hle').
  destruct (check_all settings (repeat identifier n) p') as [rs p''].
  simpl in *. constructor; assumption.
Qed.

End Facts.

(** ** The theorems at work on the scripted store *)

Import MockRedis.

(** The scenario of the design: limit 5, window 60, six requests from
    ["1.2.3.4"]. *)
Example six_requests_one_window :
  fst (check_all cfg
         ["1.2.3.4"; "1.2.3.4"; "1.2.3.4"; "1.2.3.4"; "1.2.3.4"; "1.2.3.4"]
         (fresh window_script))
  = [Returns {| allowed := true; retry_after := None; remaining := Some 4 |};
     Returns {| allowed := true; retry_after := None; remaining := Some 3 |};
     Returns {| allowed := true; retry_after := None; remaining := Some 2 |};
     Returns {| allowed := true; retry_after := None; remaining := Some 1 |};
     Returns {| allowed := true; retry_after := None; remaining := Some 0 |};
     Returns {| allowed := false; retry_after := Some 60;
                remaining := Some 0 |}].
Proof. reflexivity. Qed.

(** A store that never answers the probe stays down. *)
Example exhausted_script_stays_down :
  @stays_down mock cfg (fun s : Script => ping_replies s = []).
Proof.
  intros [pings incrs expires ttls] H. simpl in *. subst pings.
  reflexivity.
Qed.

(** The sixth request of a window under limit 5: denied, retry after the 42
    seconds the store reports. *)
Lemma over_limit_denied_witness :
  exists r p',
    check_rate_limit cfg "1.2.3.4" (fresh over_script) = (Returns r, p')
    /\ allowed r = false
    /\ remaining r = Some 0
    /\ (forall n, Some 42 = Some n -> 0 < n -> retry_after r = Some n)
    /\ (Some 42 = None \/ (exists n, Some 42 = Some n /\ n <= 0) ->
        retry_after r = Some 60).
Proof.
  eapply (over_limit_denied cfg "1.2.3.4" (fresh over_script)).
  - reflexivity.
  - reflexivity.
  - reflexivity.
  - simpl. lia.
  - reflexivity.
  - reflexivity.
Defined.

(** C1, the claim as stated fails: the increment returns 6, over the limit
    of 5, the time-to-live read raises, and the check allows the request. *)
Lemma over_limit_ttl_raises_counterexample :
  let p1 := snd (get_redis_client cfg (fresh ttl_down_script)) in
  fst (get_redis_client cfg (fresh ttl_down_script))
  = Returns (Some "redis://localhost:6379/0")
  /\ fst (@incr mock "redis://localhost:6379/0" (rl_key "1.2.3.4")
            (server p1))
     = Returns 6
  /\ rate_limit_requests_per_window cfg < 6
  /\ fst (check_rate_limit cfg "1.2.3.4" (fresh ttl_down_script))
     = Returns {| allowed := true; retry_after := None; remaining := None |}.
Proof.
  repeat split.
Qed.

(** C2, the claim as stated fails: the increment returns 1, within the limit
    of 5, the [expire] call raises, and the result carries no [remaining]
    where the claim has [5 - 1 = 4]. *)
Lemma under_limit_expire_raises_counterexample :
  let p1 := snd (get_redis_client cfg (fresh expire_down_script)) in
  fst (get_redis_client cfg (fresh expire_down_script))
  = Returns (Some "redis://localhost:6379/0")
  /\ fst (@incr mock "redis://localhost:6379/0" (rl_key "1.2.3.4")
            (server p1))
     = Returns 1
  /\ 1 <= rate_limit_requests_per_window cfg
  /\ fst (check_rate_limit cfg "1.2.3.4" (fresh expire_down_script))
     = Returns {| allowed := true; retry_after := None; remaining := None |}
  /\ (None : option Z) <> Some (Z.max (5 - 1) 0).
Proof.
  repeat split; discriminate.
Qed.

(** The first request of a window under limit 5: allowed, 4 remaining. *)
Lemma under_limit_allowed_witness :
  exists r p',
    check_rate_limit cfg "1.2.3.4" (fresh first_hit_script) = (Returns r, p')
    /\ allowed r = true
    /\ retry_after r = None
    /\ remaining r = Some (Z.max (5 - 1) 0)
    /\ remaining r = Some (5 - 1).
Proof.
  eapply (under_limit_allowed cfg "1.2.3.4" (fresh first_hit_script)).
  - reflexivity.
  - reflexivity.
  - reflexivity.
  - simpl. lia.
  - reflexivity.
Defined.



Lemma expiry_armed_on_first_hit_witness :
  (1 = 1 ->
   expiry_calls
     (calls_since (fresh first_hit_script)
        (snd (check_rate_limit cfg "1.2.3.4" (fresh first_hit_script))))
   = [("netrecon:rl:1.2.3.4", 60)]
   /\ server (snd (check_rate_limit cfg "1.2.3.4" (fresh first_hit_script)))
      = {| ping_replies := []; incr_replies := []; expire_replies := [];
           ttl_replies := [] |})
  /\ (1 <> 1 ->
      expiry_calls
        (calls_since (fresh first_hit_script)
           (snd (check_rate_limit cfg "1.2.3.4" (fresh first_hit_script))))
      = []
      /\ server (snd (check_rate_limit cfg "1.2.3.4"
                        (fresh first_hit_script)))
         = {| ping_replies := []; incr_replies := [];
              expire_replies := [Returns true]; ttl_replies := [] |}).
Proof.
  apply (expiry_armed_on_first_hit cfg "1.2.3.4" (fresh first_hit_script)
           (snd (get_redis_client cfg (fresh first_hit_script)))
           "redis://localhost:6379/0" 1
           {| ping_replies := []; incr_replies := [];
              expire_replies := [Returns true]; ttl_replies := [] |}
           eq_refl eq_refl eq_refl).
Defined.

(** C5, the claim as stated fails: under limit 5 a count of 1 dictates an
    admission with 4 remaining, but when [expire] raises the check returns
    the fail-open result, which carries no [remaining]. *)
Lemma expire_failure_counterexample :
  fst (check_rate_limit cfg "1.2.3.4" (fresh expire_down_script))
  = Returns {| allowed := true; retry_after := None; remaining := None |}
  /\ decision_for_count 5 60 1 None
     = {| allowed := true; retry_after := None; remaining := Some 4 |}
  /\ fst (check_rate_limit cfg "1.2.3.4" (fresh expire_down_script))
     <> Returns (decision_for_count 5 60 1 None).
Proof.
  split; [reflexivity|]. split; [reflexivity|]. discriminate.
Qed.

Lemma expire_failure_fails_open_witness :
  exists p',
    check_rate_limit cfg "1.2.3.4" (fresh expire_down_script)
    = (Returns fail_open, p')
    /\ log p'
       = log (snd (get_redis_client cfg (fresh expire_down_script)))
         ++ [check_failed_record "1.2.3.4"
               (RedisError "Connection reset by peer.")]
    /\ calls p'
       = calls (snd (get_redis_client cfg (fresh expire_down_script)))
         ++ [CallIncr "netrecon:rl:1.2.3.4";
             CallExpire "netrecon:rl:1.2.3.4" 60].
Proof.
  apply (proj1 (expire_failure_fails_open cfg "1.2.3.4"
                  (fresh expire_down_script)
                  (snd (get_redis_client cfg (fresh expire_down_script)))
                  "redis://localhost:6379/0"
                  {| ping_replies := []; incr_replies := [];
                     expire_replies := expire_replies expire_down_script;
                     ttl_replies := [] |}
                  eq_refl eq_refl eq_refl)
               (RedisError "Connection reset by peer.")
               {| ping_replies := []; incr_replies := [];
                  expire_replies := []; ttl_replies := [] |}).
  reflexivity.
Defined.

Lemma store_errors_fail_open_witness :
  exists p',
    check_rate_limit cfg "1.2.3.4" (fresh incr_down_script)
    = (Returns {| allowed := true; retry_after := None; remaining := None |},
       p')
    /\ log p'
       = log (snd (get_redis_client cfg (fresh incr_down_script)))
         ++ [check_failed_record "1.2.3.4"
               (RedisError "Connection reset by peer.")].
Proof.
  apply (proj2 (store_errors_fail_open cfg "1.2.3.4"
                  (fresh incr_down_script))
               "redis://localhost:6379/0"
               (snd (get_redis_client cfg (fresh incr_down_script)))
               (RedisError "Connection reset by peer.")).
  - reflexivity.
  - reflexivity.
  - eapply incr_raises. reflexivity.
Defined.

Lemma disabled_short_circuit_witness :
  (forall identifier,
      check_rate_limit cfg_disabled identifier (fresh down_script)
      = (Returns {| allowed := true; retry_after := None;
                    remaining := None |}, fresh down_script))
  /\ check_all cfg_disabled ["1.2.3.4"; "1.2.3.4"; "5.6.7.8"]
       (fresh down_script)
     = ([Returns fail_open; Returns fail_open; Returns fail_open],
        fresh down_script).
Proof.
  apply (disabled_short_circuit cfg_disabled
           ["1.2.3.4"; "1.2.3.4"; "5.6.7.8"] (fresh down_script)).
  reflexivity.
Defined.

Lemma unavailable_fails_open_witness :
  check_rate_limit cfg "1.2.3.4" (fresh down_script)
  = (Returns {| allowed := true; retry_after := None; remaining := None |},
     snd (get_redis_client cfg (fresh down_script)))
  /\ exists cs,
       calls (snd (get_redis_client cfg (fresh down_script)))
       = calls (fresh down_script) ++ cs
       /\ forallb is_connect_call cs = true.
Proof.
  apply (unavailable_fails_open cfg "1.2.3.4" (fresh down_script)).
  - reflexivity.
  - reflexivity.
Defined.

Lemma result_shape_witness :
  (allowed (decision_for_count 5 60 6 (Some 42)) = false ->
   (exists n, retry_after (decision_for_count 5 60 6 (Some 42)) = Some n
              /\ 0 < n)
   /\ remaining (decision_for_count 5 60 6 (Some 42)) = Some 0)
  /\ (allowed (decision_for_count 5 60 6 (Some 42)) = true ->
      retry_after (decision_for_count 5 60 6 (Some 42)) = None)
  /\ (remaining (decision_for_count 5 60 6 (Some 42)) = None
      <-> no_store_evaluation cfg "1.2.3.4" (fresh over_script)).
Proof.
  apply (result_shape cfg "1.2.3.4" (fresh over_script)
           (snd (check_rate_limit cfg "1.2.3.4" (fresh over_script)))).
  - simpl. lia.
  - reflexivity.
Defined.

(** ** The further properties at work *)

Lemma ttl_read_only_over_limit_witness :
  ttl_calls
    (calls_since (fresh over_script)
       (snd (check_rate_limit cfg "1.2.3.4" (fresh over_script))))
  = ["netrecon:rl:1.2.3.4"].
Proof.
  apply (ttl_read_only_over_limit cfg "1.2.3.4" (fresh over_script)
           (snd (get_redis_client cfg (fresh over_script)))
           "redis://localhost:6379/0" 6
           {| ping_replies := []; incr_replies := [];
              expire_replies := [];
              ttl_replies := [Returns (Some 42)] |}
           eq_refl eq_refl eq_refl).
Defined.

Lemma denial_only_over_limit_witness :
  rate_limit_enabled cfg = true
  /\ exists c p1 current sv1 sv2 t sv3,
       get_redis_client cfg (fresh over_script) = (Returns (Some c), p1)
       /\ incr c (rl_key "1.2.3.4") (server p1) = (Returns current, sv1)
       /\ rate_limit_requests_per_window cfg < current
       /\ after_arming cfg c "1.2.3.4" current sv1 = Returns sv2
       /\ ttl c (rl_key "1.2.3.4") sv2 = (Returns t, sv3)
       /\ decision_for_count 5 60 6 (Some 42)
          = decision_for_count (rate_limit_requests_per_window cfg)
              (rate_limit_window_seconds cfg) current t.
Proof.
  apply (denial_only_over_limit cfg "1.2.3.4" (fresh over_script)
           (snd (check_rate_limit cfg "1.2.3.4" (fresh over_script)))
           (decision_for_count 5 60 6 (Some 42))).
  - reflexivity.
  - reflexivity.
Defined.

(** Two checks fail on a store error, a third is refused: the client
    stays. *)
Lemma cached_client_survives_checks_witness :
  _redis_client
    (snd (check_all cfg ["1.2.3.4"; "5.6.7.8"; "1.2.3.4"]
            (connected flaky_script)))
  = Some "redis://localhost:6379/0"
  /\ Forall (fun k => is_connect_call k = false)
            (calls_since (connected flaky_script)
               (snd (check_all cfg ["1.2.3.4"; "5.6.7.8"; "1.2.3.4"]
                       (connected flaky_script))))
  /\ Forall (fun o => exists r, o = Returns r)
            (fst (check_all cfg ["1.2.3.4"; "5.6.7.8"; "1.2.3.4"]
                    (connected flaky_script))).
Proof.
  apply (cached_client_survives_checks cfg
           ["1.2.3.4"; "5.6.7.8"; "1.2.3.4"] (connected flaky_script)
           "redis://localhost:6379/0").
  reflexivity.
Defined.

Lemma getter_success_is_cached_witness :
  _redis_client (snd (get_redis_client cfg (fresh first_hit_script)))
  = Some "redis://localhost:6379/0"
  /\ get_redis_client cfg (snd (get_redis_client cfg (fresh first_hit_script)))
     = (Returns (Some "redis://localhost:6379/0"),
        snd (get_redis_client cfg (fresh first_hit_script))).
Proof.
  apply (getter_success_is_cached cfg (fresh first_hit_script)).
  reflexivity.
Defined.

Lemma log_only_on_store_error_witness :
  (remaining fail_open <> None ->
   log (snd (check_rate_limit cfg "1.2.3.4" (connected flaky_script)))
   = log (connected flaky_script))
  /\ (remaining fail_open = None ->
      exists e,
        log (snd (check_rate_limit cfg "1.2.3.4" (connected flaky_script)))
        = log (connected flaky_script) ++ [check_failed_record "1.2.3.4" e]).
Proof.
  apply (log_only_on_store_error cfg "1.2.3.4" (connected flaky_script)
           (snd (check_rate_limit cfg "1.2.3.4" (connected flaky_script)))
           "redis://localhost:6379/0" fail_open).
  - reflexivity.
  - reflexivity.
  - reflexivity.
Defined.

(** The counting store keeps its side of the contract. *)
Lemma counter_counts_requests (client k : string) :
  @counts_requests CounterRedis.counter cfg client k (fun n : Z => n).
Proof.
  split; intros n; simpl.
  - exists (n + 1). split; reflexivity.
  - exists true, n. split; reflexivity.
Defined.

Lemma counter_reports_ttl (client k : string) :
  @reports_ttl CounterRedis.counter client k (fun n : Z => n).
Proof.
  intros n. exists (Some 60), n. split; reflexivity.
Defined.

(** Five requests of a fresh window under limit 5: remaining 4, 3, 2, 1, 0. *)
Lemma admissions_within_limit_witness :
  fst (check_all cfg (repeat "1.2.3.4" 5) (CounterRedis.running 0))
  = admissions 5 0 5.
Proof.
  apply (@admissions_within_limit CounterRedis.counter cfg
           "redis://localhost:6379/0" "1.2.3.4"
           (fun n : Z => n) 5 (CounterRedis.running 0)).
  - reflexivity.
  - apply counter_counts_requests.
  - reflexivity.
  - simpl. lia.
Defined.

(** Three more requests once five are counted: all refused. *)
Lemma denials_beyond_limit_witness :
  Forall is_denial
         (fst (check_all cfg (repeat "1.2.3.4" 3) (CounterRedis.running 5))).
Proof.
  apply (@denials_beyond_limit CounterRedis.counter cfg
           "redis://localhost:6379/0" "1.2.3.4"
           (fun n : Z => n) 3 (CounterRedis.running 5)).
  - reflexivity.
  - apply counter_counts_requests.
  - apply counter_reports_ttl.
  - reflexivity.
  - simpl. lia.
Defined.

(** A probe answering [False] still yields a client. *)
Lemma fresh_client_was_pinged_witness :
  exists sv b,
    @from_url mock (redis_url cfg) (server (fresh ping_false_script))
    = (Returns "redis://localhost:6379/0", sv)
    /\ @ping mock "redis://localhost:6379/0" sv
       = (Returns b,
          server (snd (get_redis_client cfg (fresh ping_false_script))))
    /\ calls_since (fresh ping_false_script)
         (snd (get_redis_client cfg (fresh ping_false_script)))
       = [CallFromUrl (redis_url cfg); CallPing].
Proof.
  apply (fresh_client_was_pinged cfg (fresh ping_false_script)
           (snd (get_redis_client cfg (fresh ping_false_script)))
           "redis://localhost:6379/0").
  - reflexivity.
  - reflexivity.
Defined.

Lemma remaining_never_negative_witness :
  0 <= 4 /\ (allowed {| allowed := true; retry_after := None;
                        remaining := Some 4 |} = false -> 4 = 0).
Proof.
  apply (remaining_never_negative cfg "1.2.3.4" (fresh first_hit_script)
           (snd (check_rate_limit cfg "1.2.3.4" (fresh first_hit_script)))
           {| allowed := true; retry_after := None; remaining := Some 4 |}
           4).
  - reflexivity.
  - reflexivity.
Defined.

End RateLimiterFacts.

(** * Properties of the GeoIP resolver *)

Module GeoIPFacts.

Import GeoIP.

Section Facts.

Context {Float Json : Type}.
Variable ip_address : string -> outcome IPAddress.
Variable city_reader_city : string -> outcome (@City Float).
Variable asn_reader_asn : string -> outcome Asn.
Variable COUNTRY_META : gmap string (@CountryMeta Json).

#[local] Abbreviation lookup :=
  (lookup_ip ip_address city_reader_city asn_reader_asn COUNTRY_META).
#[local] Abbreviation lookup_connection :=
  (_lookup_connection asn_reader_asn).

(** The ASN look-up never raises: both kinds of failure give [None]. *)
Lemma lookup_connection_returns (ip : string) (tr : list DbCall) :
  exists k,
    lookup_connection ip tr = (Returns k, tr ++ [AsnLookup ip])
    /\ (forall e, asn_reader_asn ip = Raises e -> k = None)
    /\ (forall a, asn_reader_asn ip = Returns a ->
        k = Some {| asn := autonomous_system_number a;
                    org := autonomous_system_organization a;
                    isp := autonomous_system_organization a;
                    route := str_network (network a) |}).
Proof.
  unfold _lookup_connection, query.
  destruct (asn_reader_asn ip) as [a|e].
  - eexists. split; [reflexivity|]. split; [discriminate|].
    intros a' H. inversion H; subst. reflexivity.
  - exists None. split; [destruct e; reflexivity|].
    split; [reflexivity|discriminate].
Qed.

(** Metadata and connection leave the fields read from the city record
    alone. *)
Lemma inject_meta_geo (meta : @CountryMeta Json) (r : @Result Float Json) :
  r_ip (inject_meta meta r) = r_ip r
  /\ r_success (inject_meta meta r) = r_success r
  /\ r_type (inject_meta meta r) = r_type r
  /\ r_country_code (inject_meta meta r) = r_country_code r
  /\ r_connection (inject_meta meta r) = r_connection r.
Proof. repeat split. Qed.

(** ** Further properties of the resolver *)

Lemma lookup_success (ip : string) (tr : list DbCall) (o : IPAddress)
    (c : @City Float) :
  ip_address ip = Returns o ->
  city_reader_city ip = Returns c ->
  lookup ip tr
  = (Returns
       (Some match asn_reader_asn ip with
             | Returns a =>
                 set_connection (connection_of a)
                   (with_meta COUNTRY_META (base_result ip o c))
             | Raises _ => with_meta COUNTRY_META (base_result ip o c)
             end, None),
     tr ++ [CityLookup ip; AsnLookup ip]).
Proof.
  intros Ho Hc.
  unfold lookup_ip, _lookup_connection, query, with_meta, connection_of.
  rewrite Ho, Hc.
  destruct (asn_reader_asn ip) as [a|e]; [|destruct e];
    rewrite <- app_assoc; reflexivity.
Qed.

Lemma with_meta_cases (x : @Result Float Json) :
  (forall code meta,
      r_country_code x = Some code -> code <> "" ->
      COUNTRY_META !! code = Some meta ->
      with_meta COUNTRY_META x = inject_meta meta x)
  /\ (r_country_code x = None \/ r_country_code x = Some ""
      \/ (exists code, r_country_code x = Some code
                       /\ COUNTRY_META !! code = None) ->
      with_meta COUNTRY_META x = x).
Proof.
  unfold with_meta. split.
  - intros code meta -> Hne ->.
    destruct (String.eqb code "") eqn:He; [|reflexivity].
    apply String.eqb_eq in He. contradiction.
  - intros [-> | [-> | (code & -> & ->)]]; try reflexivity.
    destruct (negb (String.eqb code "")); reflexivity.
Qed.


(** X10. No usable table entry, no metadata: when the city record has no
    country code, an empty one, or one that is not a key of the metadata
    table (in particular whenever the table is empty), a successful
    look-up leaves calling code, capital, borders and flag all [None]. *)
Theorem metadata_absent_without_entry (ip : string) (tr : list DbCall)
    (o : IPAddress) (c : @City Float) :
  ip_address ip = Returns o ->
  city_reader_city ip = Returns c ->
  (country_code_of c = None \/ country_code_of c = Some ""
   \/ exists code, country_code_of c = Some code
                   /\ COUNTRY_META !! code = None) ->
  exists r,
    fst (lookup ip tr) = Returns (Some r, None)
    /\ r_country_code r = country_code_of c
    /\ r_calling_code r = None
    /\ r_capital r = None
    /\ r_borders r = None
    /\ r_flag r = None.
Proof.
  intros Ho Hc Hcc. rewrite (lookup_success ip tr o c Ho Hc). simpl.
  eexists. split; [reflexivity|].
  destruct (with_meta_cases (@base_result Float Json ip o c))
    as [_ Hsame].
  rewrite (Hsame Hcc).
  destruct (asn_reader_asn ip); repeat split.
Qed.

(** X11. A table entry is copied into the result: when the country code of
    the city record is a non-empty key of the metadata table, a successful
    look-up reports the entry's calling code, capital and borders, and a
    flag exactly when the entry has a non-empty flag dict, with its emoji,
    svg and png members ([None] for a member that is missing). *)
Theorem metadata_from_table_entry (ip : string) (tr : list DbCall)
    (o : IPAddress) (c : @City Float) (code : string)
    (meta : @CountryMeta Json) :
  ip_address ip = Returns o ->
  city_reader_city ip = Returns c ->
  country_code_of c = Some code ->
  code <> "" ->
  COUNTRY_META !! code = Some meta ->
  exists r,
    fst (lookup ip tr) = Returns (Some r, None)
    /\ r_country_code r = Some code
    /\ r_calling_code r = meta_calling_code meta
    /\ r_capital r = meta_capital meta
    /\ r_borders r = meta_borders meta
    /\ r_flag r = match meta_flag meta with
                  | Some flag_meta =>
                      if bool_decide (flag_meta = ∅) then None
                      else Some (flag_of flag_meta)
                  | None => None
                  end.
Proof.
  intros Ho Hc Hcc Hne Hm. rewrite (lookup_success ip tr o c Ho Hc). simpl.
  eexists. split; [reflexivity|].
  destruct (with_meta_cases (@base_result Float Json ip o c))
    as [Hinj _].
  rewrite (Hinj code meta Hcc Hne Hm).
  destruct (asn_reader_asn ip); simpl; repeat split; try exact Hcc;
    destruct (meta_flag meta) as [f|]; try reflexivity;
    destruct (bool_decide (f = ∅)); reflexivity.
Qed.

(** The fields that metadata and connection leave alone, in terms of the
    city record. *)
Lemma with_meta_base_fields (ip : string) (o : IPAddress) (c : @City Float) :
  let x := with_meta COUNTRY_META (@base_result Float Json ip o c) in
  r_ip x = ip
  /\ r_success x = true
  /\ r_type x = match o with
                | IPv4Address => "ipv4"
                | IPv6Address => "ipv6"
                end
  /\ r_continent x = (k ← continent c; continent_names k !! "en")
  /\ r_continent_code x = (k ← continent c; continent_code k)
  /\ r_country x = (k ← country c; country_names k !! "en")
  /\ r_country_code x = (k ← country c; iso_code k)
  /\ r_region x
     = (k ← subdivisions_most_specific c; subdivision_names k !! "en")
  /\ r_region_code x
     = (k ← subdivisions_most_specific c; subdivision_iso_code k)
  /\ r_city x = (k ← city c; place_names k !! "en")
  /\ r_latitude x = latitude (location c)
  /\ r_longitude x = longitude (location c)
  /\ r_timezone x = time_zone (location c)
  /\ r_is_eu x = country_is_in_european_union c
  /\ r_postal x = (k ← postal c; postal_code k)
  /\ r_connection x = None.
Proof.
  assert (Hregion :
    r_region (@base_result Float Json ip o c)
    = (k ← subdivisions_most_specific c; subdivision_names k !! "en")).
  { simpl. destruct (subdivisions_most_specific c) as [s|]; simpl;
      [|reflexivity].
    destruct (bool_decide (subdivision_names s = ∅)) eqn:He; [|reflexivity].
    apply bool_decide_eq_true in He. rewrite He. symmetry.
    apply lookup_empty. }
  assert (Hmeta :
    forall x : @Result Float Json,
      r_ip (with_meta COUNTRY_META x) = r_ip x
      /\ r_success (with_meta COUNTRY_META x) = r_success x
      /\ r_type (with_meta COUNTRY_META x) = r_type x
      /\ r_continent (with_meta COUNTRY_META x) = r_continent x
      /\ r_continent_code (with_meta COUNTRY_META x) = r_continent_code x
      /\ r_country (with_meta COUNTRY_META x) = r_country x
      /\ r_country_code (with_meta COUNTRY_META x) = r_country_code x
      /\ r_region (with_meta COUNTRY_META x) = r_region x
      /\ r_region_code (with_meta COUNTRY_META x) = r_region_code x
      /\ r_city (with_meta COUNTRY_META x) = r_city x
      /\ r_latitude (with_meta COUNTRY_META x) = r_latitude x
      /\ r_longitude (with_meta COUNTRY_META x) = r_longitude x
      /\ r_timezone (with_meta COUNTRY_META x) = r_timezone x
      /\ r_is_eu (with_meta COUNTRY_META x) = r_is_eu x
      /\ r_postal (with_meta COUNTRY_META x) = r_postal x
      /\ r_connection (with_meta COUNTRY_META x) = r_connection x).
  { intros x. unfold with_meta.
    destruct (r_country_code x) as [code|] eqn:Hx;
      [|repeat split; assumption].
    destruct (negb (String.eqb code "")); [|repeat split; assumption].
    destruct (COUNTRY_META !! code); repeat split; assumption. }
  intros x. subst x.
  destruct (Hmeta (@base_result Float Json ip o c))
    as (M1 & M2 & M3 & M4 & M5 & M6 & M7 & M8 & M9 & M10 & M11 & M12
        & M13 & M14 & M15 & M16).
  rewrite M1, M2, M3, M4, M5, M6, M7, M8, M9, M10, M11, M12, M13, M14, M15,
    M16, Hregion.
  simpl.
  destruct (continent c), (country c), (subdivisions_most_specific c),
    (city c), (postal c); repeat split.
Qed.

(** X12. The geographic fields come from the city record alone: whatever
    the metadata table and the ASN database hold, a successful look-up
    reports the English names, codes, coordinates, time zone and postal code
    of the city record, and [None] for a part the record lacks; the EU flag
    is the attribute of the country object, read without testing the object.
    The region name is the English name of the most specific subdivision;
    the test for an empty name table changes nothing. *)
Theorem geo_fields_from_city_record (ip : string) (tr : list DbCall)
    (o : IPAddress) (c : @City Float) :
  ip_address ip = Returns o ->
  city_reader_city ip = Returns c ->
  exists r,
    fst (lookup ip tr) = Returns (Some r, None)
    /\ r_continent r = (k ← continent c; continent_names k !! "en")
    /\ r_continent_code r = (k ← continent c; continent_code k)
    /\ r_country r = (k ← country c; country_names k !! "en")
    /\ r_country_code r = (k ← country c; iso_code k)
    /\ r_region r
       = (k ← subdivisions_most_specific c; subdivision_names k !! "en")
    /\ r_region_code r
       = (k ← subdivisions_most_specific c; subdivision_iso_code k)
    /\ r_city r = (k ← city c; place_names k !! "en")
    /\ r_latitude r = latitude (location c)
    /\ r_longitude r = longitude (location c)
    /\ r_timezone r = time_zone (location c)
    /\ r_is_eu r = country_is_in_european_union c
    /\ r_postal r = (k ← postal c; postal_code k).
Proof.
  intros Ho Hc. rewrite (lookup_success ip tr o c Ho Hc). simpl.
  eexists. split; [reflexivity|].
  destruct (with_meta_base_fields ip o c)
    as (_ & _ & _ & F1 & F2 & F3 & F4 & F5 & F6 & F7 & F8 & F9 & F10 & F11
        & F12 & _).
  destruct (asn_reader_asn ip); simpl; repeat split; assumption.
Qed.

End Facts.

(** ** The table as loaded *)

Section RawFacts.

Context {Float : Type}.
Variable ip_address : string -> outcome IPAddress.
Variable city_reader_city : string -> outcome (@City Float).
Variable asn_reader_asn : string -> outcome Asn.
Variable COUNTRY_META : json.

#[local] Abbreviation lookup_raw :=
  (lookup_ip_raw ip_address city_reader_city asn_reader_asn COUNTRY_META).

(** On a table of the shape the code reads, the metadata block never raises
    and does what [with_meta] does on the table's view. *)
Lemma inject_meta_raw_view (x : @Result Float json) :
  well_shaped COUNTRY_META ->
  inject_meta_raw COUNTRY_META x
  = Returns (with_meta (table_view COUNTRY_META) x).
Proof.
  intros (m & -> & Hm).
  unfold inject_meta_raw, with_meta, table_view, py_in, py_getitem, and_then.
  destruct (r_country_code x) as [cc|]; [|reflexivity].
  destruct (negb (String.eqb cc "")); [|reflexivity].
  rewrite lookup_fmap.
  destruct (m !! cc) as [v|] eqn:Hv; simpl; [|reflexivity].
  destruct (Hm cc v Hv) as (e & -> & Hflag). simpl.
  unfold inject_meta, set_meta. simpl.
  destruct (e !! "flag") as [f|]; [|reflexivity].
  destruct (truthy f) eqn:Ht.
  - destruct (Hflag eq_refl) as (d & ->). simpl in *.
    destruct (bool_decide (d = ∅)); [discriminate|reflexivity].
  - destruct f; try reflexivity. simpl in *.
    destruct (bool_decide (members = ∅)); [reflexivity|discriminate].
Qed.

(** [lookup_ip] is [lookup_ip_raw] on such a table. *)
Lemma lookup_ip_raw_view (ip : string) (tr : list DbCall) :
  well_shaped COUNTRY_META ->
  lookup_raw ip tr
  = lookup_ip ip_address city_reader_city asn_reader_asn
      (table_view COUNTRY_META) ip tr.
Proof.
  intros Hw. unfold lookup_ip_raw, lookup_ip.
  destruct (ip_address ip) as [o|e]; [|reflexivity].
  destruct (query (CityLookup ip) (city_reader_city ip) tr) as [[c|e] tr1];
    [|reflexivity].
  rewrite (inject_meta_raw_view _ Hw). reflexivity.
Qed.

(** The metadata fields in terms of the entry consulted. *)
Lemma with_meta_view_fields (ip : string) (o : IPAddress) (c : @City Float) :
  let x := with_meta (table_view COUNTRY_META)
             (@base_result Float json ip o c) in
  r_calling_code x = (e ← meta_entry COUNTRY_META c; e !! "calling_code")
  /\ r_capital x = (e ← meta_entry COUNTRY_META c; e !! "capital")
  /\ r_borders x = (e ← meta_entry COUNTRY_META c; e !! "borders")
  /\ r_flag x = (e ← meta_entry COUNTRY_META c; flag_from (e !! "flag")).
Proof.
  unfold with_meta, meta_entry, table_view, country_code_of.
  change (r_country_code (@base_result Float json ip o c))
    with (match country c with Some k => iso_code k | None => None end).
  destruct (match country c with Some k => iso_code k | None => None end)
    as [cc|]; [|repeat split].
  destruct (String.eqb cc ""); simpl; [repeat split|].
  destruct COUNTRY_META as [| | | | | |m]; try (rewrite lookup_empty);
    try (repeat split; fail).
  rewrite lookup_fmap.
  destruct (m !! cc) as [v|]; simpl; [|repeat split].
  destruct v as [| | | | | |e]; simpl; try (repeat split; fail).
  repeat split.
  unfold flag_from, flag_of.
  destruct (e !! "flag") as [f|]; [|reflexivity].
  destruct f; try reflexivity.
Qed.

(** C10 (as amended). On a metadata table of the shape the code reads (a
    dict of dicts whose flag is a dict or tests false), [lookup_ip] returns
    a pair and never raises.  A string that is not an IP address gives
    [(None, "invalid_ip")] with no database look-up; an address missing
    from the city database gives [(None, "not_found")]; any other error of
    the city look-up gives [(None, tag)] with a ["lookup_error:"] tag; a
    successful city look-up gives no error and a record populated from the
    city record and from the table entry of its country, whether or not the
    ASN look-up fails: a failing ASN look-up only leaves the connection
    field absent. *)
Theorem lookup_ip_error_handling (ip : string) (tr : list DbCall) :
  raises_only_ValueError ip_address ->
  well_shaped COUNTRY_META ->
  (exists res tr', lookup_raw ip tr = (Returns res, tr'))
  /\ (forall e, ip_address ip = Raises e ->
        lookup_raw ip tr = (Returns (None, Some "invalid_ip"), tr))
  /\ (forall o, ip_address ip = Returns o ->
        (forall m, city_reader_city ip = Raises (AddressNotFoundError m) ->
           fst (lookup_raw ip tr) = Returns (None, Some "not_found"))
        /\ (forall e, city_reader_city ip = Raises e ->
              (forall m, e <> AddressNotFoundError m) ->
              fst (lookup_raw ip tr)
              = Returns (None, Some ("lookup_error:" +:+ exn_str e)))
        /\ (forall c, city_reader_city ip = Returns c ->
              exists r,
                lookup_raw ip tr
                = (Returns (Some r, None),
                   tr ++ [CityLookup ip; AsnLookup ip])
                /\ r_ip r = ip
                /\ r_success r = true
                /\ r_type r = match o with
                              | IPv4Address => "ipv4"
                              | IPv6Address => "ipv6"
                              end
                /\ r_continent r
                   = (k ← continent c; continent_names k !! "en")
                /\ r_continent_code r = (k ← continent c; continent_code k)
                /\ r_country r = (k ← country c; country_names k !! "en")
                /\ r_country_code r = (k ← country c; iso_code k)
                /\ r_region r
                   = (k ← subdivisions_most_specific c;
                      subdivision_names k !! "en")
                /\ r_region_code r
                   = (k ← subdivisions_most_specific c;
                      subdivision_iso_code k)
                /\ r_city r = (k ← city c; place_names k !! "en")
                /\ r_latitude r = latitude (location c)
                /\ r_longitude r = longitude (location c)
                /\ r_timezone r = time_zone (location c)
                /\ r_is_eu r = country_is_in_european_union c
                /\ r_postal r = (k ← postal c; postal_code k)
                /\ r_calling_code r
                   = (e ← meta_entry COUNTRY_META c; e !! "calling_code")
                /\ r_capital r
                   = (e ← meta_entry COUNTRY_META c; e !! "capital")
                /\ r_borders r
                   = (e ← meta_entry COUNTRY_META c; e !! "borders")
                /\ r_flag r
                   = (e ← meta_entry COUNTRY_META c;
                      flag_from (e !! "flag"))
                /\ (forall e, asn_reader_asn ip = Raises e ->
                      r_connection r = None)
                /\ (forall a, asn_reader_asn ip = Returns a ->
                      r_connection r
                      = Some {| asn := autonomous_system_number a;
                                org := autonomous_system_organization a;
                                isp := autonomous_system_organization a;
                                route := str_network (network a) |}))).
Proof.
  intros Hval Hw.
  assert (Hcity : forall o c,
             ip_address ip = Returns o -> city_reader_city ip = Returns c ->
             lookup_raw ip tr
             = (Returns
                  (Some match asn_reader_asn ip with
                        | Returns a =>
                            set_connection (connection_of a)
                              (with_meta (table_view COUNTRY_META)
                                 (base_result ip o c))
                        | Raises _ =>
                            with_meta (table_view COUNTRY_META)
                              (base_result ip o c)
                        end, None),
                tr ++ [CityLookup ip; AsnLookup ip])).
  { intros o c Ho Hc. rewrite (lookup_ip_raw_view ip tr Hw).
    apply lookup_success; assumption. }
  split; [|split].
  - destruct (ip_address ip) as [o|e] eqn:Ho.
    + destruct (city_reader_city ip) as [c|e] eqn:Hc.
      * eexists _, _. apply (Hcity o c eq_refl eq_refl).
      * unfold lookup_ip_raw. rewrite Ho. unfold query. rewrite Hc.
        destruct e; eexists _, _; reflexivity.
    + destruct (Hval ip e Ho) as (m & ->).
      unfold lookup_ip_raw. rewrite Ho. eexists _, _. reflexivity.
  - intros e Ho. destruct (Hval ip e Ho) as (m & ->).
    unfold lookup_ip_raw. rewrite Ho. reflexivity.
  - intros o Ho. split; [|split].
    + intros m Hc. unfold lookup_ip_raw. rewrite Ho. unfold query.
      rewrite Hc. reflexivity.
    + intros e Hc Hne. unfold lookup_ip_raw. rewrite Ho. unfold query.
      rewrite Hc. destruct e; try reflexivity.
      exfalso. eapply Hne. reflexivity.
    + intros c Hc. eexists. split; [apply (Hcity o c Ho Hc)|].
      destruct (with_meta_base_fields (table_view COUNTRY_META) ip o c)
        as (G1 & G2 & G3 & G4 & G5 & G6 & G7 & G8 & G9 & G10 & G11 & G12
            & G13 & G14 & G15 & G16).
      destruct (with_meta_view_fields ip o c) as (M1 & M2 & M3 & M4).
      destruct (asn_reader_asn ip) as [a|e]; simpl;
        (do 19 (split; [assumption|])); split.
      * intros e He. discriminate.
      * intros a' Ha. inversion Ha; subst. reflexivity.
      * intros e' He. exact G16.
      * intros a Ha. discriminate.
Qed.

End RawFacts.

(** The small database satisfies the library contract. *)
Lemma example_ip_address_contract :
  raises_only_ValueError GeoIPExample.ip_address.
Proof.
  intros s e. unfold GeoIPExample.ip_address.
  destruct (String.eqb s "8.8.8.8"); [discriminate|].
  destruct (String.eqb s "2001:4860:4860::8888"); [discriminate|].
  intros H. inversion H. eexists. reflexivity.
Defined.

(** The loaded table of the small database has the shape the code reads. *)
Lemma example_table_well_shaped :
  well_shaped GeoIPExample.COUNTRY_META_loaded.
Proof.
  eexists. split; [reflexivity|].
  intros k v H. apply lookup_singleton_Some in H as [_ <-].
  exists GeoIPExample.us_entry. split; [reflexivity|].
  assert (E : GeoIPExample.us_entry !! "flag"
              = Some (JObject GeoIPExample.us_flag)) by reflexivity.
  rewrite E. intros _. eexists. reflexivity.
Defined.

Lemma lookup_ip_error_handling_witness :
  exists res tr',
    lookup_ip_raw GeoIPExample.ip_address GeoIPExample.city_reader_city
      GeoIPExample.asn_reader_asn GeoIPExample.COUNTRY_META_loaded
      "2001:4860:4860::8888" []
    = (Returns res, tr').
Proof.
  apply (proj1 (lookup_ip_error_handling
                  GeoIPExample.ip_address GeoIPExample.city_reader_city
                  GeoIPExample.asn_reader_asn
                  GeoIPExample.COUNTRY_META_loaded
                  "2001:4860:4860::8888" []
                  example_ip_address_contract
                  example_table_well_shaped)).
Defined.

(** C10, the claim as stated fails: with a table whose flag is a string, the
    look-up of a known address raises out of [lookup_ip], after the city
    look-up and before the ASN look-up. *)
Lemma lookup_ip_raises_counterexample :
  lookup_ip_raw GeoIPExample.ip_address GeoIPExample.city_reader_city
    GeoIPExample.asn_reader_asn GeoIPExample.flag_as_string_table
    "8.8.8.8" []
  = (Raises (OtherException "'str' object has no attribute 'get'"),
     [CityLookup "8.8.8.8"]).
Proof. reflexivity. Qed.

(** With the empty fallback table the look-up of a known address carries
    no metadata. *)
Lemma metadata_absent_without_entry_witness :
  exists r,
    fst (lookup_ip GeoIPExample.ip_address GeoIPExample.city_reader_city
           GeoIPExample.asn_reader_asn
           (∅ : gmap string (@CountryMeta string)) "8.8.8.8" [])
    = Returns (Some r, None)
    /\ r_country_code r = country_code_of GeoIPExample.mountain_view
    /\ r_calling_code r = None
    /\ r_capital r = None
    /\ r_borders r = None
    /\ r_flag r = None.
Proof.
  apply (metadata_absent_without_entry
           GeoIPExample.ip_address GeoIPExample.city_reader_city
           GeoIPExample.asn_reader_asn
           (∅ : gmap string (@CountryMeta string)) "8.8.8.8" []
           IPv4Address GeoIPExample.mountain_view).
  - reflexivity.
  - reflexivity.
  - right. right. exists "US". split; reflexivity.
Defined.

Lemma metadata_from_table_entry_witness :
  exists r,
    fst (lookup_ip GeoIPExample.ip_address GeoIPExample.city_reader_city
           GeoIPExample.asn_reader_asn GeoIPExample.COUNTRY_META
           "8.8.8.8" [])
    = Returns (Some r, None)
    /\ r_country_code r = Some "US"
    /\ r_calling_code r = Some "+1"
    /\ r_capital r = Some "Washington, D.C."
    /\ r_borders r = None
    /\ r_flag r = Some {| emoji := Some "US"; svg := Some "us.svg";
                          png := None |}.
Proof.
  destruct (metadata_from_table_entry
              GeoIPExample.ip_address GeoIPExample.city_reader_city
              GeoIPExample.asn_reader_asn GeoIPExample.COUNTRY_META
              "8.8.8.8" [] IPv4Address GeoIPExample.mountain_view "US"
              {| meta_calling_code := Some "+1";
                 meta_capital := Some "Washington, D.C.";
                 meta_borders := None;
                 meta_flag := Some {["emoji" := "US"; "svg" := "us.svg"]} |}
              eq_refl eq_refl eq_refl
              (fun H : "US" = "" => eq_ind "US"
                 (fun s => match s with
                           | EmptyString => False
                           | String _ _ => True
                           end) I "" H)
              eq_refl)
    as (r & E & Hcode & Hcall & Hcap & Hbord & Hflag).
  exists r. repeat split; assumption.
Defined.

Lemma geo_fields_from_city_record_witness :
  exists r,
    fst (lookup_ip GeoIPExample.ip_address GeoIPExample.city_reader_city
           GeoIPExample.asn_reader_asn GeoIPExample.COUNTRY_META
           "2001:4860:4860::8888" [])
    = Returns (Some r, None)
    /\ r_continent r = Some "North America"
    /\ r_continent_code r = Some "NA"
    /\ r_country r = Some "United States"
    /\ r_country_code r = Some "US"
    /\ r_region r = Some "California"
    /\ r_region_code r = Some "CA"
    /\ r_city r = Some "Mountain View"
    /\ r_latitude r = Some "37.4056"
    /\ r_longitude r = Some "-122.0775"
    /\ r_timezone r = Some "America/Los_Angeles"
    /\ r_is_eu r = Some false
    /\ r_postal r = Some "94043".
Proof.
  apply (geo_fields_from_city_record
           GeoIPExample.ip_address GeoIPExample.city_reader_city
           GeoIPExample.asn_reader_asn GeoIPExample.COUNTRY_META
           "2001:4860:4860::8888" [] IPv6Address GeoIPExample.mountain_view).
  - reflexivity.
  - reflexivity.
Defined.

End GeoIPFacts.
